(** * Shallow embedding of multi_condition_comparisions (tl/de.py, methods/)

    The Python exceptions are modelled by an error monad [result]; pandas
    DataFrames by a small table type; formulaic's model specification by a
    record whose materialiser is a function field; AnnData by a record with
    [X], [layers], [obs] and the name indexes. *)

From Stdlib Require Import QArith Qminmax String Ascii List Sorted Permutation.
From stdpp Require Import base gmap strings list.

Open Scope string_scope.

(* ------------------------------------------------------------------ *)
(** ** Python exceptions as an error monad *)

Inductive exn_kind :=
  ValueError | TypeError | KeyError | RuntimeError | AssertionError
| AttributeError | NotImplementedError | ImportError | IndexError.

Record py_exn := PyExn { exn : exn_kind; exn_msg : string }.

Inductive result (A : Type) : Type :=
| Ok (a : A)
| Err (e : py_exn).
Arguments Ok {A} a.
Arguments Err {A} e.

#[global] Instance result_ret : MRet result := fun A a => Ok a.
#[global] Instance result_bind : MBind result := fun A B f m =>
  match m with Ok a => f a | Err e => Err e end.

Definition raise {A} (k : exn_kind) (msg : string) : result A := Err (PyExn k msg).

Definition is_err {A} (r : result A) : bool :=
  match r with Ok _ => false | Err _ => true end.

(* ------------------------------------------------------------------ *)
(** ** Strings: [str.startswith] and the column-name regex of [cond] *)

Fixpoint starts_with (p s : list ascii) : bool :=
  match p, s with
  | [], _ => true
  | c :: p', d :: s' => Ascii.eqb c d && starts_with p' s'
  | _ :: _, [] => false
  end.

Definition startswith (s p : string) : bool :=
  starts_with (list_ascii_of_string p) (list_ascii_of_string s).

Definition newline : ascii := Ascii.ascii_of_nat 10.

(** Number of characters matched by a greedy [.] run (everything but a
    newline). *)
Fixpoint dot_run (s : list ascii) : nat :=
  match s with
  | [] => 0
  | c :: s' => if Ascii.eqb c newline then 0 else S (dot_run s')
  end.

(** Candidate lengths of a greedy [.+], longest first. *)
Fixpoint greedy_lengths (n : nat) : list nat :=
  match n with 0 => [] | S k => S k :: greedy_lengths k end.

Fixpoint first_some {A B} (f : A -> option B) (l : list A) : option B :=
  match l with
  | [] => None
  | x :: l' => match f x with Some y => Some y | None => first_some f l' end
  end.

(** Python's [$] without MULTILINE: end of string, or just before a final
    newline. *)
Definition dollar_at (s : list ascii) (p : nat) : bool :=
  Nat.eqb p (length s)
  || (Nat.eqb (S p) (length s) && Ascii.eqb (nth p s "a"%char) newline).

(** [re.compile(r"^.+\[T\.(.+)\]$").search(s)], with the backtracking order
    of Python's engine: the first [.+] tries its longest run first, then
    the group does; returns group 1. *)
Definition colname_regex (s : list ascii) : option (list ascii) :=
  first_some (fun k =>
    if starts_with ["["; "T"; "."]%char (drop k s) then
      let rest := drop (k + 3) s in
      first_some (fun m =>
        if Ascii.eqb (nth m rest "a"%char) "]"%char && dollar_at s (k + 3 + m + 1)
        then Some (take m rest) else None)
        (greedy_lengths (dot_run rest))
    else None)
    (greedy_lengths (dot_run s)).

(** [_get_var_from_colname]: [regex.search(colname).groups()[0]]; a failed
    search gives [None], whose [.groups] is an AttributeError. *)
Definition _get_var_from_colname (colname : string) : result string :=
  match colname_regex (list_ascii_of_string colname) with
  | Some g => Ok (string_of_list_ascii g)
  | None => raise AttributeError "'NoneType' object has no attribute 'groups'"
  end.

(** Whether a name has no newline, and whether it contains ["[T."]. *)
Definition no_newline (s : string) : bool :=
  forallb (fun c => negb (Ascii.eqb c newline)) (list_ascii_of_string s).

Definition has_T_marker (s : string) : bool :=
  existsb (fun i => starts_with ["["; "T"; "."]%char (drop i (list_ascii_of_string s)))
          (seq 0 (length (list_ascii_of_string s))).

(* ------------------------------------------------------------------ *)
(** ** Design matrices and formulaic's model specification *)

(** Values a caller passes to [cond] as keyword arguments. *)
Inductive value := VStr (s : string) | VNum (q : Q).

Inductive factor_kind := Numerical | Categorical | Constant.

Definition kind_value (k : factor_kind) : string :=
  match k with
  | Numerical => "numerical" | Categorical => "categorical" | Constant => "constant"
  end.

(** [encoder_state[var]] is a pair: the kind, and a state dict whose
    ["categories"] entry lists the observed levels. *)
Record encoder_entry := EncoderEntry {
  ee_kind : factor_kind;
  ee_categories : list string }.

(** [ModelMatrix.model_spec], with the column labels of the matrix. The
    materialiser [get_model_matrix] maps a one-row DataFrame (the dict of
    column name to value) to the row of the model matrix. *)
Record ModelSpec := MkModelSpec {
  columns : list string;
  variables : list string;                         (* variables_by_source["data"] *)
  encoder_state : list (string * encoder_entry);
  get_model_matrix : gmap string value -> result (list Q) }.

(** [self.design]: a formulaic [ModelMatrix] or any other matrix. *)
Inductive Design :=
| RawMatrix (m : list (list Q))
| ModelMatrix (spec : ModelSpec).

Fixpoint assoc {B} (k : string) (l : list (string * B)) : option B :=
  match l with
  | [] => None
  | (k', b) :: l' => if String.eqb k k' then Some b else assoc k l'
  end.

(** [set(xs)], kept as a duplicate-free list. *)
Fixpoint dedup (l : list string) : list string :=
  match l with
  | [] => []
  | x :: l' => if existsb (String.eqb x) l' then dedup l' else x :: dedup l'
  end.

Definition mem (x : string) (l : list string) : bool := existsb (String.eqb x) l.

(* ------------------------------------------------------------------ *)
(** ** [BaseMethod.cond] and [BaseMethod.contrast] (tl/de.py) *)

Definition cond_msg : string :=
  "Building contrasts with `cond` only works if you specified the model using a "
  ++ "formulaic formula. Please manually provide a contrast vector.".

Definition encoder_lookup (spec : ModelSpec) (var : string) : result encoder_entry :=
  match assoc var (encoder_state spec) with
  | Some e => Ok e
  | None => raise KeyError var
  end.

(** The default of an omitted categorical variable: the categories that
    have no ["var[...]"] column, of which the code asserts there is one. *)
Definition dropped_level (spec : ModelSpec) (var : string) (all_categories : list string)
    : result string :=
  let var_cols := List.filter (fun c => startswith c (var ++ "[")) (columns spec) in
  present_categories ← mapM _get_var_from_colname var_cols;
  let dropped_category :=
    List.filter (fun c => negb (mem c present_categories)) all_categories in
  match dropped_category with
  | [c] => Ok c
  | _ => raise AssertionError ""
  end.

(** One iteration of [for var in self.variables]; [kwargs] is the dict
    shared with [cond_dict]. *)
Definition fill_var (spec : ModelSpec) (kwargs : gmap string value) (var : string)
    : result (gmap string value) :=
  e ← encoder_lookup spec var;
  let categorical := String.eqb (kind_value (ee_kind e)) "categorical" in
  let all_categories := dedup (ee_categories e) in
  match kwargs !! var with
  | Some v =>
      let known := match v with VStr s => mem s all_categories | VNum _ => false end in
      if categorical && negb known
      then raise ValueError ("You specified a non-existant category for " ++ var)
      else Ok kwargs
  | None =>
      if negb categorical then Ok (<[var := VNum 0]> kwargs)
      else c ← dropped_level spec var all_categories; Ok (<[var := VStr c]> kwargs)
  end.

Fixpoint fill_defaults (spec : ModelSpec) (kwargs : gmap string value) (vars : list string)
    : result (gmap string value) :=
  match vars with
  | [] => Ok kwargs
  | v :: vs => kw ← fill_var spec kwargs v; fill_defaults spec kw vs
  end.

Definition cond (design : Design) (kwargs : gmap string value) : result (list Q) :=
  match design with
  | RawMatrix _ => raise RuntimeError cond_msg
  | ModelMatrix spec =>
      kw ← fill_defaults spec kwargs (variables spec);
      get_model_matrix spec kw
  end.

(** Subtraction of two one-row model matrices of the same spec: pandas
    aligns them on the (identical) column labels, so it is elementwise. *)
Definition vsub (a b : list Q) : list Q := zip_with Qminus a b.

Definition contrast (design : Design) (column baseline group_to_compare : string)
    : result (list Q) :=
  a ← cond design {[column := VStr baseline]};
  b ← cond design {[column := VStr group_to_compare]};
  Ok (vsub a b).

(* ------------------------------------------------------------------ *)
(** ** Concrete designs: formulaic's default treatment coding

    A categorical variable lists its levels in formulaic's order, the first
    being the reference level, which gets no column.  A term is a list of
    variables ([[]] is the intercept, [[a; b]] the interaction [a:b]); each
    of its columns is one choice of a non-reference level per variable,
    named ["a[T.x]:b[T.y]"] (["Intercept"] for the empty choice). *)

Record CatVar := MkCatVar { cv_name : string; cv_levels : list string }.

Definition dummy_name (var level : string) : string := var ++ "[T." ++ level ++ "]".

Fixpoint join_colon (l : list string) : string :=
  match l with
  | [] => ""
  | [x] => x
  | x :: l' => x ++ ":" ++ join_colon l'
  end.

Definition col_name (c : list (string * string)) : string :=
  match c with
  | [] => "Intercept"
  | _ => join_colon (map (fun '(v, l) => dummy_name v l) c)
  end.

Definition cat_lookup (vars : list CatVar) (v : string) : list string :=
  match List.find (fun cv => String.eqb (cv_name cv) v) vars with
  | Some cv => cv_levels cv
  | None => []
  end.

Fixpoint term_columns (vars : list CatVar) (term : list string) : list (list (string * string)) :=
  match term with
  | [] => [[]]
  | v :: t =>
      flat_map (fun l => map (fun rest => (v, l) :: rest) (term_columns vars t))
               (tl (cat_lookup vars v))
  end.

(** Value of one design column on a row: the product of its indicators. *)
Fixpoint col_value (row : gmap string value) (c : list (string * string)) : result Q :=
  match c with
  | [] => Ok 1%Q
  | (v, l) :: c' =>
      x ← match row !! v with
          | Some (VStr l') => Ok (if String.eqb l l' then 1%Q else 0%Q)
          | Some (VNum _) => raise TypeError v
          | None => raise KeyError v
          end;
      y ← col_value row c';
      Ok (x * y)%Q
  end.

Definition treatment_spec (vars : list CatVar) (terms : list (list string)) : ModelSpec :=
  let cols := flat_map (term_columns vars) terms in
  {| columns := map col_name cols;
     variables := map cv_name vars;
     encoder_state :=
       map (fun cv => (cv_name cv, EncoderEntry Categorical (cv_levels cv))) vars;
     get_model_matrix := fun row => mapM (col_value row) cols |}.

(** ["~ condition"] with levels A, B. *)
Definition design_condition : Design :=
  ModelMatrix (treatment_spec [MkCatVar "condition" ["A"; "B"]] [[]; ["condition"]]).

(** ["~ donor"] with four donors. *)
Definition design_donor : Design :=
  ModelMatrix (treatment_spec [MkCatVar "donor" ["D0"; "D1"; "D2"; "D3"]] [[]; ["donor"]]).

(** ["~ condition * group"] with condition in {B, C} and group in {A, B}. *)
Definition spec_interaction : ModelSpec :=
  treatment_spec [MkCatVar "condition" ["B"; "C"]; MkCatVar "group" ["A"; "B"]]
    [[]; ["condition"]; ["group"]; ["condition"; "group"]].

(* ------------------------------------------------------------------ *)
(** ** pandas DataFrames *)

(** A cell of a frame or of an expression matrix. [CArr0 x] is a 0-d
    numpy array holding the float [x]; pandas keeps it as an object. *)
Inductive cell :=
| CQ (q : Q) | CNaN | CPosInf | CNegInf | CText (s : string) | CNone | CArr0 (x : cell).

(** A row: its index label and its (column, cell) entries. *)
Record Row := MkRow { ridx : cell; rdata : list (string * cell) }.

Record Table := MkTable { tcols : list string; trows : list Row }.

Definition n_rows (t : Table) : nat := length (trows t).

(** Order-preserving [set] of labels. *)
Definition nub (l : list string) : list string :=
  fold_left (fun acc x => if mem x acc then acc else app acc [x]) l [].

Definition get_cell (r : Row) (k : string) : cell :=
  match assoc k (rdata r) with Some c => c | None => CNaN end.

(** [pd.DataFrame(records)]: columns in order of first appearance, a
    RangeIndex, missing entries NaN. *)
Definition DataFrame (records : list (list (string * cell))) : Table :=
  let cols := nub (flat_map (fun r => map fst r) records) in
  MkTable cols
    (imap (fun i r => MkRow (CQ (inject_Z (Z.of_nat i)))
                            (map (fun c => (c, match assoc c r with
                                               | Some x => x | None => CNaN end)) cols))
          records).

(** Ascending order of [sort_values], NaN placed last ([na_position="last"]). *)
Definition cell_rank (c : cell) : nat :=
  match c with CNegInf => 0 | CQ _ => 1 | CPosInf => 2 | _ => 3 end.

Definition cell_leb (a b : cell) : bool :=
  match a, b with
  | CQ x, CQ y => Qle_bool x y
  | _, _ => Nat.leb (cell_rank a) (cell_rank b)
  end.

Fixpoint insert_by (k : string) (r : Row) (l : list Row) : list Row :=
  match l with
  | [] => [r]
  | r' :: l' => if cell_leb (get_cell r k) (get_cell r' k) then r :: r' :: l'
                else r' :: insert_by k r l'
  end.

Fixpoint sort_rows (k : string) (l : list Row) : list Row :=
  match l with [] => [] | r :: l' => insert_by k r (sort_rows k l') end.

(** Python's [<] on two floats: false as soon as one of them is NaN. *)
Definition float_lt (a b : cell) : bool :=
  match a, b with
  | CQ x, CQ y => negb (Qle_bool y x)
  | CNegInf, (CQ _ | CPosInf) => true
  | CQ _, CPosInf => true
  | _, _ => false
  end.

(** The scalar inside a 0-d array. *)
Definition scalar (c : cell) : cell := match c with CArr0 x => x | _ => c end.

(** [a < b] on the objects of an object column: numbers and 0-d numeric
    arrays compare by their values (a comparison with NaN is false); the
    columns sorted here hold nothing else. *)
Definition object_lt (a b : cell) : bool := float_lt (scalar a) (scalar b).

(** [pd.isna] on one entry of a column: [None] and float NaN; a 0-d array
    is not a float, so a NaN inside one is not recognised. *)
Definition isna (c : cell) : bool := match c with CNaN | CNone => true | _ => false end.

(** A column pandas stores with object dtype (it holds strings or arrays);
    the others hold floats. *)
Definition is_object_column (col : list cell) : bool :=
  existsb (fun c => match c with CText _ | CArr0 _ => true | _ => false end) col.

(** *** numpy's [argsort(kind="quicksort")] on an object array

    [npy_aquicksort]: introsort over the index array [tosort], comparing
    with the dtype's [compare], here [cmp(a, b) < 0] iff [a < b]. Ranges of
    more than 17 elements are partitioned around the median of three;
    smaller ones are insertion sorted; a range popped from the stack once
    the depth budget [2 * msb(num)] is spent is heap sorted
    ([npy_aheapsort]). The C code keeps the larger part on an explicit
    stack and goes on with the smaller; here both are sorted by recursion,
    the smaller first. The two ranges are disjoint, so the result is the
    same. *)
Section NpySort.
Variable lt : cell -> cell -> bool.
Variable v : list cell.

(** The value [v[tosort[i]]]. *)
Definition val (a : list nat) (i : nat) : cell := nth (nth i a 0) v CNaN.

(** [cmp(v[tosort[i]], v[tosort[j]]) < 0]. *)
Definition less (a : list nat) (i j : nat) : bool := lt (val a i) (val a j).

(** [INTP_SWAP(tosort[i], tosort[j])]; the indices are always within the
    array. *)
Definition swap (a : list nat) (i j : nat) : list nat :=
  if Nat.ltb i (length a) && Nat.ltb j (length a)
  then <[i := nth j a 0]> (<[j := nth i a 0]> a) else a.

(** The inner [while] of the insertion sort: the entry at [pl + d] moves
    left while it is less than its left neighbour, not past [pl]. Shifting
    the neighbours up and storing the entry at the end, as the C code does,
    leaves the same array as these swaps. *)
Fixpoint shift_left (pl d : nat) (a : list nat) : list nat :=
  match d with
  | 0 => a
  | S d' => if less a (pl + S d') (pl + d') then shift_left pl d' (swap a (pl + S d') (pl + d'))
            else a
  end.

(** [for (pi = pl + 1; pi <= pr; ++pi)]. *)
Definition insertion_sort (pl pr : nat) (a : list nat) : list nat :=
  fold_left (fun a pi => shift_left pl (pi - pl) a) (seq (S pl) (pr - pl)) a.

(** [do ++pi; while (cmp(v[tosort[pi]], vp) < 0);], started after the
    increment. The pivot sits at [pr - 1] and is not less than itself, so
    the scan stops there at the latest. *)
Fixpoint scan_up (a : list nat) (p : cell) (i fuel : nat) : nat :=
  match fuel with
  | 0 => i
  | S f => if lt (val a i) p then scan_up a p (S i) f else i
  end.

(** [do --pj; while (cmp(vp, v[tosort[pj]]) < 0);], started after the
    decrement. After the median of three the entry at [pl] is not greater
    than the pivot, so the scan stops there at the latest. *)
Fixpoint scan_down (a : list nat) (p : cell) (j fuel : nat) : nat :=
  match fuel with
  | 0 => j
  | S f => if lt p (val a j) then scan_down a p (j - 1) f else j
  end.

(** The partition [for (;;)]: scan, stop when the pointers meet, swap. *)
Fixpoint partition_loop (a : list nat) (p : cell) (pi pj pl pr fuel : nat) : list nat * nat :=
  match fuel with
  | 0 => (a, pi)
  | S f =>
      let pi' := scan_up a p (S pi) (pr - 1 - S pi) in
      let pj' := scan_down a p (pj - 1) (pj - 1 - pl) in
      if Nat.leb pj' pi' then (a, pi')
      else partition_loop (swap a pi' pj') p pi' pj' pl pr f
  end.

(** One quicksort partition of [pl..pr]: median of three, pivot moved to
    [pr - 1], the scans, and the pivot put at its place [pi]. *)
Definition partition (a : list nat) (pl pr : nat) : list nat * nat :=
  let pm := pl + (pr - pl) / 2 in
  let a1 := if less a pm pl then swap a pm pl else a in
  let a2 := if less a1 pr pm then swap a1 pr pm else a1 in
  let a3 := if less a2 pm pl then swap a2 pm pl else a2 in
  let p := val a3 pm in
  let a4 := swap a3 pm (pr - 1) in
  let '(a5, pi) := partition_loop a4 p pl (pr - 1) pl pr (pr - pl) in
  (swap a5 pi (pr - 1), pi).

(** Position [k] (1-based) of the heap over the range starting at [pl]. *)
Definition hp (pl k : nat) : nat := pl + k - 1.

(** The sift-down of [npy_aheapsort]: the entry [tmp] at heap position [i]
    goes down while it is less than its larger child. *)
Fixpoint sift (a : list nat) (pl n i fuel : nat) : list nat :=
  match fuel with
  | 0 => a
  | S f =>
      if Nat.ltb n (2 * i) then a
      else
        let j := if Nat.ltb (2 * i) n && less a (hp pl (2 * i)) (hp pl (2 * i + 1))
                 then 2 * i + 1 else 2 * i in
        if less a (hp pl i) (hp pl j) then sift (swap a (hp pl i) (hp pl j)) pl n j f else a
  end.

(** [npy_aheapsort] on the [n] entries from [pl]: build the heap
    ([l = n/2 .. 1]), then move the root to the end ([n .. 2]). *)
Definition heapsort (a : list nat) (pl n : nat) : list nat :=
  let a := fold_left (fun a l => sift a pl n l n) (rev (seq 1 (n / 2))) a in
  fold_left (fun a m => sift (swap a (hp pl 1) (hp pl m)) pl (m - 1) 1 n) (rev (seq 2 (n - 1))) a.

(** The range [pl..pr] with depth budget [cdepth]; [check] is set for a
    range popped from the stack, where the C code tests the budget. *)
Fixpoint quick (fuel : nat) (a : list nat) (pl pr : nat) (cdepth : Z) (check : bool)
    : list nat :=
  match fuel with
  | 0 => a
  | S f =>
      if check && (cdepth <? 0)%Z then heapsort a pl (pr - pl + 1)
      else if Nat.ltb 16 (pr - pl) then
        let '(a', pi) := partition a pl pr in
        let c := (cdepth - 1)%Z in
        if Nat.ltb (pi - pl) (pr - pi)
        then quick f (quick f a' pl (pi - 1) c false) (pi + 1) pr c true
        else quick f (quick f a' (pi + 1) pr c false) pl (pi - 1) c true
      else insertion_sort pl pr a
  end.

(** [npy_aquicksort] on [v]: the permutation of [0 .. len(v) - 1] it
    leaves in [tosort]. Every range has fewer elements than the one it was
    cut from, so [len(v)] rounds of recursion are enough. *)
Definition npy_aquicksort : list nat :=
  let num := length v in
  match num with
  | 0 => []
  | _ => quick num (seq 0 num) 0 (num - 1) (2 * Z.log2 (Z.of_nat num)) true
  end.
End NpySort.

(** pandas' [nargsort(kind="quicksort", na_position="last")] on an object
    column: the entries [isna] misses are argsorted by numpy, the missing
    ones follow in their order. *)
Definition nargsort_object (col : list cell) : list nat :=
  let idx := seq 0 (length col) in
  let non_nan_idx := List.filter (fun i => negb (isna (nth i col CNaN))) idx in
  let nan_idx := List.filter (fun i => isna (nth i col CNaN)) idx in
  let non_nans := map (fun i => nth i col CNaN) non_nan_idx in
  map (fun p => nth p non_nan_idx 0) (npy_aquicksort object_lt non_nans) ++ nan_idx.

(** [df.sort_values(k)]. On a float column the rows come in ascending
    order with NaN last (numpy's sort of the non-NaN floats is not stable;
    no theorem here depends on the order of ties). On an object column the
    rows come in the order of [nargsort_object]. *)
Definition sort_values (k : string) (t : Table) : result Table :=
  if mem k (tcols t) then
    let col := map (fun r => get_cell r k) (trows t) in
    if is_object_column col
    then Ok (MkTable (tcols t) (map (fun i => nth i (trows t) (MkRow CNone [])) (nargsort_object col)))
    else Ok (MkTable (tcols t) (sort_rows k (trows t)))
  else raise KeyError k.

(** [df.set_index(k)]. *)
Definition set_index (k : string) (t : Table) : result Table :=
  if mem k (tcols t) then
    Ok (MkTable (List.filter (fun c => negb (String.eqb c k)) (tcols t))
                (map (fun r => MkRow (get_cell r k)
                                     (List.filter (fun '(c, _) => negb (String.eqb c k)) (rdata r)))
                     (trows t)))
  else raise KeyError k.

Fixpoint set_entry (k : string) (v : cell) (d : list (string * cell)) : list (string * cell) :=
  match d with
  | [] => [(k, v)]
  | (k', v') :: d' => if String.eqb k k' then (k, v) :: d' else (k', v') :: set_entry k v d'
  end.

(** [df.assign(k=v)] with a scalar [v]. *)
Definition assign (k : string) (v : cell) (t : Table) : Table :=
  MkTable (if mem k (tcols t) then tcols t else app (tcols t) [k])
          (map (fun r => MkRow (ridx r) (set_entry k v (rdata r))) (trows t)).

(** [pd.concat(frames)] along the rows. *)
Definition pd_concat (frames : list Table) : result Table :=
  match frames with
  | [] => raise ValueError "No objects to concatenate"
  | _ => Ok (MkTable (nub (flat_map tcols frames)) (flat_map trows frames))
  end.

(* ------------------------------------------------------------------ *)
(** ** [BaseMethod.test_contrasts] *)

(** The [contrasts] argument: a dict (its items in order) or anything else. *)
Inductive contrasts_arg (C : Type) :=
| CDict (items : list (string * C))
| CSingle (c : C).
Arguments CDict {C} items.
Arguments CSingle {C} c.

Definition name_cell (name : option string) : cell :=
  match name with Some n => CText n | None => CNone end.

Section TestContrasts.
Context {C : Type}.
(** The backend's [_test_single_contrast]. *)
Variable _test_single_contrast : C -> result Table.

Definition test_contrasts (contrasts : contrasts_arg C) : result Table :=
  let items := match contrasts with
               | CDict l => map (fun '(n, c) => (Some n, c)) l
               | CSingle c => [(None, c)]
               end in
  results ← mapM (fun '(name, c) =>
                    t ← _test_single_contrast c; Ok (assign "contrast" (name_cell name) t))
                 items;
  pd_concat results.
End TestContrasts.

(* ------------------------------------------------------------------ *)
(** ** AnnData and the expression matrix *)

Inductive dtype := DFloat | DInt | DObject.

Definition issubdtype_number (d : dtype) : bool :=
  match d with DObject => false | _ => true end.

(** A dense matrix, observations by variables. *)
Record Matrix := MkMatrix { m_dtype : dtype; m_rows : list (list cell) }.

Record AnnData := MkAnnData {
  obs_names : list string;
  var_names : list string;
  obs : list (string * list string);          (* adata.obs columns *)
  var : list (string * list bool);            (* boolean adata.var columns *)
  X : Matrix;
  layers : list (string * Matrix) }.

Definition select {A} (mask : list bool) (l : list A) : list A :=
  map snd (List.filter fst (combine mask l)).

Definition matrix_select_vars (mask : list bool) (m : Matrix) : Matrix :=
  MkMatrix (m_dtype m) (map (select mask) (m_rows m)).

Definition matrix_select_obs (mask : list bool) (m : Matrix) : Matrix :=
  MkMatrix (m_dtype m) (select mask (m_rows m)).

(** [adata[:, mask]]. *)
Definition subset_vars (mask : list bool) (a : AnnData) : AnnData :=
  {| obs_names := obs_names a;
     var_names := select mask (var_names a);
     obs := obs a;
     var := map (fun '(k, c) => (k, select mask c)) (var a);
     X := matrix_select_vars mask (X a);
     layers := map (fun '(k, m) => (k, matrix_select_vars mask m)) (layers a) |}.

(** [adata[mask, :]]. *)
Definition subset_obs (mask : list bool) (a : AnnData) : AnnData :=
  {| obs_names := select mask (obs_names a);
     var_names := var_names a;
     obs := map (fun '(k, c) => (k, select mask c)) (obs a);
     var := var a;
     X := matrix_select_obs mask (X a);
     layers := map (fun '(k, m) => (k, matrix_select_obs mask m)) (layers a) |}.

Definition lookup_or_key_error {B} (k : string) (l : list (string * B)) : result B :=
  match assoc k l with Some b => Ok b | None => raise KeyError k end.

(** [np.isnan(X)]: not defined on object arrays. *)
Definition isnan_any (m : Matrix) : result bool :=
  match m_dtype m with
  | DObject => raise TypeError "ufunc 'isnan' not supported for the input types"
  | _ => Ok (existsb (existsb (fun c => match c with CNaN => true | _ => false end)) (m_rows m))
  end.

Definition isinf_any (m : Matrix) : bool :=
  existsb (existsb (fun c => match c with CPosInf | CNegInf => true | _ => false end)) (m_rows m).

Definition has_nan_or_inf (m : Matrix) : bool :=
  existsb (existsb (fun c => match c with CNaN | CPosInf | CNegInf => true | _ => false end))
          (m_rows m).

(** The matrix a backend reads: [adata.X], or [adata.layers[layer]]. *)
Definition layer_matrix (a : AnnData) (layer : option string) : result Matrix :=
  match layer with
  | None => Ok (X a)
  | Some l => lookup_or_key_error l (layers a)
  end.

Fixpoint index_of (x : string) (l : list string) : option nat :=
  match l with
  | [] => None
  | y :: l' => if String.eqb x y then Some 0 else option_map S (index_of x l')
  end.

(** [sc.get.obs_df(adata, keys=[var], layer=layer)[var]]. *)
Definition obs_df_column (a : AnnData) (layer : option string) (v : string) : result (list cell) :=
  m ← layer_matrix a layer;
  match index_of v (var_names a) with
  | Some j => Ok (map (fun row => nth j row CNaN) (m_rows m))
  | None => raise KeyError v
  end.

(* ------------------------------------------------------------------ *)
(** ** [BaseMethod.__init__] (tl/de.py) *)

Inductive design_arg :=
| DesignFormula (formula : string)
| DesignGiven (d : Design).

(** The attributes set by the constructor. *)
Record Method := MkMethod { m_adata : AnnData; m_layer : option string; m_design : Design }.

Section Construct.
(** formulaic's [model_matrix(formula, obs)]. *)
Variable model_matrix : string -> list (string * list string) -> result ModelSpec.
(** The backend's [_check_counts]. *)
Variable _check_counts : AnnData -> bool.

Definition BaseMethod_init (adata : AnnData) (design : design_arg)
    (mask layer : option string) : result Method :=
  adata' ← match mask with
           | None => Ok adata
           | Some k => m ← lookup_or_key_error k (var adata); Ok (subset_vars m adata)
           end;
  nan ← isnan_any (X adata');
  if nan || isinf_any (X adata') then raise ValueError "Counts cannot contain NaN or Inf values."
  else if negb (issubdtype_number (m_dtype (X adata'))) then raise ValueError "Counts must be numeric."
  else if negb (_check_counts adata') then raise ValueError "Counts are not valid for this method."
  else
    d ← match design with
        | DesignFormula f => spec ← model_matrix f (obs adata); Ok (ModelMatrix spec)
        | DesignGiven d => Ok d
        end;
    Ok (MkMethod adata' layer d).
End Construct.

(** [_check_counts] of StatsmodelsDE, PyDESeq2DE, EdgeRDE and WilcoxonTest. *)
Definition check_counts_true (_ : AnnData) : bool := true.

(* ------------------------------------------------------------------ *)
(** ** statsmodels' [fdrcorrection] (Benjamini-Hochberg, [method="indep"]) *)

Fixpoint insert_pval (x : nat * Q) (l : list (nat * Q)) : list (nat * Q) :=
  match l with
  | [] => [x]
  | y :: l' => if Qle_bool (snd x) (snd y) then x :: y :: l' else y :: insert_pval x l'
  end.

(** [np.argsort] paired with the sorted values. *)
Fixpoint argsort (l : list (nat * Q)) : list (nat * Q) :=
  match l with [] => [] | x :: l' => insert_pval x (argsort l') end.

(** [np.minimum.accumulate(raw[::-1])[::-1]]. *)
Fixpoint suffix_min (l : list (nat * Q)) : list (nat * Q) :=
  match l with
  | [] => []
  | (i, q) :: l' =>
      match suffix_min l' with
      | [] => [(i, q)]
      | (j, m) :: r => (i, Qmin q m) :: (j, m) :: r
      end
  end.

Fixpoint assoc_nat (i : nat) (l : list (nat * Q)) : option Q :=
  match l with
  | [] => None
  | (j, q) :: l' => if Nat.eqb i j then Some q else assoc_nat i l'
  end.

(** The corrected p-values ([fdrcorrection(pvals)[1]]), in input order. *)
Definition fdrcorrection (pvals : list Q) : list Q :=
  let n := length pvals in
  let sorted := argsort (imap pair pvals) in
  let ecdffactor k := (inject_Z (Z.of_nat (S k)) / inject_Z (Z.of_nat n))%Q in
  let raw := imap (fun k '(i, p) => (i, p / ecdffactor k)%Q) sorted in
  let corrected := map (fun '(i, q) => (i, if negb (Qle_bool q 1) then 1%Q else q))
                       (suffix_min raw) in
  map (fun i => match assoc_nat i corrected with Some q => q | None => 0%Q end)
      (seq 0 n).

(* ------------------------------------------------------------------ *)
(** ** Linear-model adapters: [StatsmodelsDE] (tl/de.py) and
       [Statsmodels] (methods/_statsmodels.py) *)

(** [mod.t_test(contrast)]: p-value, t, standard deviation and effect,
    each a float ([CQ], [CNaN], [CPosInf] or [CNegInf]). [pvalue] is
    stored as statsmodels returns it, a 0-d array; the others are read
    with [.item()]. *)
Record TTest := MkTTest { tt_pvalue : cell; tt_tvalue : cell; tt_sd : cell; tt_effect : cell }.

(** [statsmodels.stats.multitest.fdrcorrection(np.array([p]))[1].item()]:
    a one-element array is divided by [1 / 1], and values above 1 are set
    to 1; NaN stays NaN. *)
Definition fdr_item (p : cell) : cell :=
  match scalar p with
  | CQ q => CQ (nth 0 (fdrcorrection [q]) 0%Q)
  | CPosInf => CQ 1
  | CNegInf => CNegInf
  | _ => CNaN
  end.

(** The instance: its constructor attributes and [self.models], absent
    before the first [fit]. *)
Record SMState (Model : Type) := MkSMState { sm_method : Method; sm_models : option (list Model) }.
Arguments MkSMState {Model}.
Arguments sm_method {Model}.
Arguments sm_models {Model}.

Section Statsmodels.
Context {Model Contrast : Type}.
(** [regression_model(y, design, **kwargs).fit()]. *)
Variable regression_model : list cell -> Design -> Model.
(** [mod.t_test(contrast)]; it raises (ValueError) on a contrast that does
    not fit the design. *)
Variable t_test : Model -> Contrast -> result TTest.

Definition StatsmodelsDE_fit (st : SMState Model) : result (SMState Model) :=
  let m := sm_method st in
  ys ← mapM (obs_df_column (m_adata m) (m_layer m)) (var_names (m_adata m));
  Ok (MkSMState m (Some (map (fun y => regression_model y (m_design m)) ys))).

Definition models_or_error (st : SMState Model) : result (list Model) :=
  match sm_models st with
  | Some ms => Ok ms
  | None => raise AttributeError "object has no attribute 'models'"
  end.

Definition StatsmodelsDE_record (v : string) (md : Model) (contrast : Contrast)
    : result (list (string * cell)) :=
  t ← t_test md contrast;
  Ok [("variable", CText v); ("pvalue", CArr0 (tt_pvalue t)); ("tvalue", tt_tvalue t);
      ("sd", tt_sd t); ("fold_change", tt_effect t)].

(** [StatsmodelsDE._test_single_contrast]. *)
Definition StatsmodelsDE_test_single_contrast (st : SMState Model) (contrast : Contrast)
    : result Table :=
  models ← models_or_error st;
  res ← mapM (fun '(v, md) => StatsmodelsDE_record v md contrast)
             (combine (var_names (m_adata (sm_method st))) models);
  t ← sort_values "pvalue" (DataFrame res);
  set_index "variable" t.

Definition Statsmodels_record (v : string) (md : Model) (contrast : Contrast)
    : result (list (string * cell)) :=
  t ← t_test md contrast;
  Ok [("variable", CText v); ("p_value", CArr0 (tt_pvalue t)); ("t_value", tt_tvalue t);
      ("sd", tt_sd t); ("log_fc", tt_effect t);
      ("adj_p_value", fdr_item (tt_pvalue t))].

(** [Statsmodels._test_single_contrast]. *)
Definition Statsmodels_test_single_contrast (st : SMState Model) (contrast : Contrast)
    : result Table :=
  models ← models_or_error st;
  res ← mapM (fun '(v, md) => Statsmodels_record v md contrast)
             (combine (var_names (m_adata (sm_method st))) models);
  sort_values "p_value" (DataFrame res).
End Statsmodels.

(* ------------------------------------------------------------------ *)
(** ** [EdgeRDE.fit]: the fitted R object is stored in [self.fit]

    Attribute lookup on the instance finds the instance dictionary before
    the class, so once [self.fit] holds the R object, [obj.fit()] calls
    that object. *)

Record EdgeRState (RObject : Type) := MkEdgeRState {
  er_method : Method;
  er_fit_attr : option RObject }.          (* instance-dict entry "fit" *)
Arguments MkEdgeRState {RObject}.
Arguments er_method {RObject}.
Arguments er_fit_attr {RObject}.

Section EdgeR.
Context {RObject : Type}.
(** rpy2 and the R packages import. *)
Variable r_available : bool.
(** DGEList, calcNormFactors, estimateDisp and glmQLFit on the matrix. *)
Variable glmQLFit : Matrix -> AnnData -> Design -> RObject.

Definition EdgeRDE_fit_body (st : EdgeRState RObject) : result (EdgeRState RObject) :=
  if negb r_available then raise ImportError "edger requires rpy2 to be installed. "
  else
    let m := er_method st in
    expr ← layer_matrix (m_adata m) (m_layer m);
    Ok (MkEdgeRState m (Some (glmQLFit expr (m_adata m) (m_design m)))).

(** [obj.fit()]. *)
Definition EdgeRDE_call_fit (st : EdgeRState RObject) : result (EdgeRState RObject) :=
  match er_fit_attr st with
  | Some _ => raise TypeError "'RS4' object is not callable"
  | None => EdgeRDE_fit_body st
  end.
End EdgeR.

(** [obj.fit()] on a freshly constructed [StatsmodelsDE]/[EdgeRDE]. *)
Definition fresh_SM {Model} (m : Method) : SMState Model := MkSMState m None.
Definition fresh_EdgeR {RObject} (m : Method) : EdgeRState RObject := MkEdgeRState m None.

(* ------------------------------------------------------------------ *)
(** ** [WilcoxonTest] (tl/de.py) *)

(** [adata[names]]: observations selected by name. *)
Definition anndata_getitem_obs (a : AnnData) (names : list string) : result AnnData :=
  if forallb (fun n => mem n (obs_names a)) names
  then Ok (subset_obs (map (fun o => mem o names) (obs_names a)) a)
  else raise KeyError (join_colon names).

(** [adata == value]: AnnData defines [__eq__] to raise. *)
Definition anndata_eq (a : AnnData) (v : string) : result (list bool) :=
  raise NotImplementedError
    "Equality comparisons are not supported for AnnData objects, instead compare the desired attributes.".

(** [adata[mask, var]]. *)
Definition anndata_getitem_mask_var (a : AnnData) (mask : list bool) (v : string)
    : result AnnData :=
  if mem v (var_names a)
  then Ok (subset_vars (map (String.eqb v) (var_names a)) (subset_obs mask a))
  else raise KeyError v.

Definition flat_cells (m : Matrix) : list cell := concat (m_rows m).

Section Wilcoxon.
(** [scipy.stats.mannwhitneyu(x, y, ...).pvalue]. *)
Variable mannwhitneyu : list cell -> list cell -> Q.
(** [np.log(mean_x1) - np.log(mean_x0)]. *)
Variable log_fold_change : list cell -> list cell -> cell.

Definition WilcoxonTest__test (m : Method) (contrast : list string) (v : string) : result Q :=
  let a := m_adata m in
  col ← lookup_or_key_error (nth 0 contrast "") (obs a);
  adata0 ← anndata_getitem_mask_var a (map (String.eqb (nth 1 contrast "")) col) v;
  by_name ← anndata_getitem_obs a [nth 0 contrast ""];
  mask1 ← anndata_eq by_name (nth 2 contrast "");
  adata1 ← anndata_getitem_mask_var a mask1 v;
  x0 ← layer_matrix adata0 (m_layer m);
  x1 ← layer_matrix adata1 (m_layer m);
  Ok (mannwhitneyu (flat_cells x0) (flat_cells x1)).

Definition WilcoxonTest_record (m : Method) (contrast : list string) (v : string)
    : result (list (string * cell)) :=
  let a := m_adata m in
  pval ← WilcoxonTest__test m contrast v;
  sel ← anndata_getitem_obs a contrast;
  mask0 ← anndata_eq sel (nth 0 contrast "");
  adata0 ← anndata_getitem_mask_var a mask0 v;
  mask1 ← anndata_eq sel (nth 1 contrast "");
  adata1 ← anndata_getitem_mask_var a mask1 v;
  x0 ← layer_matrix adata0 (m_layer m);
  x1 ← layer_matrix adata1 (m_layer m);
  Ok [("variable", CText v); ("pvalue", CQ pval);
      ("fold_change", log_fold_change (flat_cells x0) (flat_cells x1))].

(** [WilcoxonTest._test_single_contrast]. *)
Definition WilcoxonTest_test_single_contrast (m : Method) (contrast : list string)
    : result Table :=
  if negb (Nat.eqb (length contrast) 3) then raise ValueError "Contrast"
  else
    res ← mapM (WilcoxonTest_record m contrast) (var_names (m_adata m));
    t ← sort_values "pvalue" (DataFrame res);
    set_index "variable" t.
End Wilcoxon.
(* ------------------------------------------------------------------ *)
(** ** The contrast vector of [EdgeRDE._test_single_contrast]
       (methods/_edger.py) *)

(** [self.design.columns]: a numpy matrix has no [.columns]. *)
Definition design_columns (design : Design) : result (list string) :=
  match design with
  | ModelMatrix spec => Ok (columns spec)
  | RawMatrix _ => raise AttributeError "'numpy.ndarray' object has no attribute 'columns'"
  end.

(** [contrast[i]]. *)
Definition list_getitem (l : list string) (i : nat) : result string :=
  match nth_error l i with
  | Some x => Ok x
  | None => raise IndexError "list index out of range"
  end.

(** [make_contrast_column_key(ind)]. *)
Definition make_contrast_column_key (contrast : list string) (ind : nat) : result string :=
  c0 ← list_getitem contrast 0;
  ci ← list_getitem contrast ind;
  Ok (c0 ++ "[T." ++ ci ++ "]").

(** One iteration of [for index in [1, 2]]: the column of the key, when
    present, is set to 1 ([list.index] gives its first position). *)
Definition edger_contrast_step (cols : list string) (contrast : list string)
    (acc : result (list Z)) (index : nat) : result (list Z) :=
  contrast_vec ← acc;
  key ← make_contrast_column_key contrast index;
  if mem key cols then
    match index_of key cols with
    | Some i => Ok (<[i := 1%Z]> contrast_vec)
    | None => raise ValueError "is not in list"
    end
  else Ok contrast_vec.

Definition edger_contrast_vec (design : Design) (contrast : list string) : result (list Z) :=
  cols ← design_columns design;
  fold_left (edger_contrast_step cols contrast) [1; 2] (Ok (repeat 0%Z (length cols))).

(* ------------------------------------------------------------------ *)
(** ** The design factors of [PyDESeq2DE.fit] (tl/de.py) *)

(** [s.split(sep)[0]]: the text before the first [sep]. *)
Fixpoint split_first (sep : ascii) (s : string) : string :=
  match s with
  | EmptyString => EmptyString
  | String c s' => if Ascii.eqb c sep then EmptyString else String c (split_first sep s')
  end.

(** Whether a name contains a ['['] character. *)
Definition has_bracket (s : string) : bool :=
  existsb (Ascii.eqb "["%char) (list_ascii_of_string s).

(** [covars = self.design.columns.tolist()]; whether the intercept warning
    is issued, and [processed_covars]. *)
Definition PyDESeq2DE_design_factors (design : Design) : result (bool * list string) :=
  covars ← design_columns design;
  let warn := negb (mem "Intercept" covars) in
  Ok (warn, map (split_first "[") (List.filter (fun col => negb (String.eqb col "Intercept")) covars)).

(* ------------------------------------------------------------------ *)
(** ** [run_de] and [MethodRegistry] (tl/wrapper.py) *)

(** A backend class: its [_check_counts], the instance built by
    [BaseMethod.__init__], [fit], the constructor attributes of an
    instance, and [_test_single_contrast] on a contrast vector. *)
Record Backend := MkBackend {
  b_state : Type;
  b_check_counts : AnnData -> bool;
  b_fresh : Method -> b_state;
  b_fit : b_state -> result b_state;
  b_method : b_state -> Method;
  b_test : b_state -> list Q -> result Table }.

Definition StatsmodelsDE_backend {Model} (regression_model : list cell -> Design -> Model)
    (t_test : Model -> list Q -> result TTest) : Backend :=
  {| b_state := SMState Model;
     b_check_counts := check_counts_true;
     b_fresh := fresh_SM;
     b_fit := StatsmodelsDE_fit regression_model;
     b_method := sm_method;
     b_test := StatsmodelsDE_test_single_contrast t_test |}.

(** [EdgeRDE] of tl/de.py; its test runs [glmQLFTest] and [topTags] in R
    on the R global [fit] ([edger_test]). *)
Definition EdgeRDE_backend {RObject} (r_available : bool)
    (glmQLFit : Matrix -> AnnData -> Design -> RObject)
    (edger_test : list Q -> result Table) : Backend :=
  {| b_state := EdgeRState RObject;
     b_check_counts := check_counts_true;
     b_fresh := fresh_EdgeR;
     b_fit := EdgeRDE_call_fit r_available glmQLFit;
     b_method := er_method;
     b_test := fun _ c => if negb r_available
                          then raise ImportError "edger requires rpy2 to be installed. "
                          else edger_test c |}.

Definition MethodRegistry (deseq edger statsmodels : Backend) : list (string * Backend) :=
  [("DESeq", deseq); ("edgeR", edger); ("statsmodels", statsmodels)].

(** A value of the [contrasts] mapping: a [Contrast] TypedDict or a list. *)
Inductive contrast_spec :=
| ContrastDict (column baseline group_to_compare : string)
| ContrastList (l : list string).

(** The [contrasts] argument: a dict (its items in order) or a list. *)
Inductive contrasts_param :=
| ContrastsDict (items : list (string * contrast_spec))
| ContrastsList (l : list string).

(** [model.contrast] called with the dict's entries as keywords, or with
    the list's items as positional arguments. *)
Definition contrast_call (design : Design) (c : contrast_spec) : result (list Q) :=
  match c with
  | ContrastDict col b g => contrast design col b g
  | ContrastList [col; b; g] => contrast design col b g
  | ContrastList _ => raise TypeError "contrast() takes 4 positional arguments"
  end.

Section RunDE.
Variable model_matrix : string -> list (string * list string) -> result ModelSpec.
Variables deseq edger statsmodels : Backend.

Definition run_de (adata : AnnData) (contrasts : contrasts_param) (method : string)
    (design : design_arg) (mask layer : option string) : result Table :=
  backend ← lookup_or_key_error method (MethodRegistry deseq edger statsmodels);
  m ← BaseMethod_init model_matrix (b_check_counts backend) adata design mask layer;
  model ← b_fit backend (b_fresh backend m);
  items ← match contrasts with
          | ContrastsDict l => Ok l
          | ContrastsList _ => raise AttributeError "'list' object has no attribute 'items'"
          end;
  cs ← mapM (fun '(name, c) =>
               v ← contrast_call (m_design (b_method backend model)) c; Ok (name, v)) items;
  test_contrasts (b_test backend model) (CDict cs).
End RunDE.

(* ------------------------------------------------------------------ *)
(** ** Concrete inputs *)

(** Four samples in two conditions, two genes; [X] is finite and the
    ["counts"] layer has a NaN. *)
Definition counts_X : Matrix :=
  MkMatrix DFloat [[CQ 1; CQ 2]; [CQ 3; CQ 4]; [CQ 5; CQ 6]; [CQ 7; CQ 8]].

Definition counts_with_nan : Matrix :=
  MkMatrix DFloat [[CNaN; CQ 2]; [CQ 3; CQ 4]; [CQ 5; CQ 6]; [CQ 7; CQ 8]].

Definition adata_example : AnnData :=
  {| obs_names := ["s0"; "s1"; "s2"; "s3"];
     var_names := ["g0"; "g1"];
     obs := [("condition", ["A"; "A"; "B"; "B"])];
     var := [];
     X := counts_X;
     layers := [("counts", counts_with_nan)] |}.

Definition method_example : Method := MkMethod adata_example None design_condition.

(** A formula engine stand-in for inputs whose design is given directly. *)
Definition no_formula_engine (_ : string) (_ : list (string * list string)) : result ModelSpec :=
  raise ValueError "no formula".

(** A fitted model reduced to the p-value of its t-test. *)
Definition pvalue_model_test (p : Q) (_ : unit) : result TTest :=
  Ok (MkTTest (CQ p) (CQ 0) (CQ 1) (CQ 0)).






Definition adj_column (t : Table) : list Q :=
  map (fun r => match get_cell r "adj_p_value" with CQ q => Qred q | _ => 0%Q end) (trows t).

Definition tag_row (v : cell) (r : Row) : Row := MkRow (ridx r) (set_entry "contrast" v (rdata r)).

Definition pvalue_table (n : nat) : result Table :=
  Ok (MkTable ["pvalue"] [MkRow (CQ 0) [("pvalue", CQ (inject_Z (Z.of_nat n)))]]).

(** The matrix of [adata_example] with a NaN in feature g0, and a boolean
    [adata.var] column that keeps only g1. *)
Definition adata_nan_in_g0 : AnnData :=
  {| obs_names := ["s0"; "s1"; "s2"; "s3"];
     var_names := ["g0"; "g1"];
     obs := [("condition", ["A"; "A"; "B"; "B"])];
     var := [("keep", [false; true])];
     X := counts_with_nan;
     layers := [] |}.

(** A backend whose fitted models are trivial, for instances of [run_de]. *)
Definition trivial_backend : Backend :=
  StatsmodelsDE_backend (fun _ _ => tt) (fun _ _ => Ok (MkTTest (CQ 0) (CQ 0) (CQ 1) (CQ 0))).

(** ["~ 0 + condition"]: without an intercept formulaic gives every level
    a full indicator column, named ["condition[A]"]. *)
Definition spec_no_intercept : ModelSpec :=
  {| columns := ["condition[A]"; "condition[B]"];
     variables := ["condition"];
     encoder_state := [("condition", EncoderEntry Categorical ["A"; "B"])];
     get_model_matrix := fun row => mapM (fun l => col_value row [("condition", l)]) ["A"; "B"] |}.

(** ["~ age"] with a numerical covariate. *)
Definition spec_age : ModelSpec :=
  {| columns := ["Intercept"; "age"];
     variables := ["age"];
     encoder_state := [("age", EncoderEntry Numerical [])];
     get_model_matrix := fun row =>
       match row !! "age" with
       | Some (VNum q) => Ok [1; q]%Q
       | Some (VStr _) => raise TypeError "age"
       | None => raise KeyError "age"
       end |}.

Example cond_condition_A : cond design_condition {[ "condition" := VStr "A" ]} = Ok [1; 0]%Q.
Proof. vm_compute. reflexivity. Qed.
Example cond_condition_B : cond design_condition {[ "condition" := VStr "B" ]} = Ok [1; 1]%Q.
Proof. vm_compute. reflexivity. Qed.
Example cond_donor_D0 : cond design_donor {[ "donor" := VStr "D0" ]} = Ok [1; 0; 0; 0]%Q.
Proof. vm_compute. reflexivity. Qed.
Example cond_condition_empty : cond design_condition ∅ = Ok [1; 0]%Q.
Proof. vm_compute. reflexivity. Qed.
Example regex_interaction :
  _get_var_from_colname "condition[T.C]:group[T.B]" = Ok "B".
Proof. vm_compute. reflexivity. Qed.

(* ------------------------------------------------------------------ *)
(** ** Contrast construction *)

Lemma vsub_antisym (a b : list Q) : Forall2 Qeq (vsub a b) (map Qopp (vsub b a)).
Proof.
  revert b; induction a as [|x a IH]; intros [|y b]; simpl; constructor.
  - ring.
  - apply IH.
Qed.

(** C1: [contrast(column, baseline, group_to_compare)] is the elementwise
    difference [cond(column=baseline) - cond(column=group_to_compare)],
    baseline minus comparison. *)
Theorem contrast_is_cond_difference (design : Design) (column baseline group_to_compare : string)
    (v w : list Q) :
  cond design {[column := VStr baseline]} = Ok v ->
  cond design {[column := VStr group_to_compare]} = Ok w ->
  contrast design column baseline group_to_compare = Ok (vsub v w).
Proof.
  intros Hv Hw. unfold contrast. rewrite Hv. simpl. rewrite Hw. reflexivity.
Qed.

Lemma contrast_is_cond_difference_witness :
  cond design_condition {[ "condition" := VStr "A" ]} = Ok [1; 0]%Q /\
  cond design_condition {[ "condition" := VStr "B" ]} = Ok [1; 1]%Q /\
  contrast design_condition "condition" "A" "B" = Ok (vsub [1; 0]%Q [1; 1]%Q).
Proof.
  assert (HA : cond design_condition {[ "condition" := VStr "A" ]} = Ok [1; 0]%Q)
    by (vm_compute; reflexivity).
  assert (HB : cond design_condition {[ "condition" := VStr "B" ]} = Ok [1; 1]%Q)
    by (vm_compute; reflexivity).
  split; [exact HA | split; [exact HB |]].
  exact (contrast_is_cond_difference design_condition "condition" "A" "B" _ _ HA HB).
Defined.

(** C5: swapping the two levels negates the contrast elementwise; when one
    of the [cond] calls fails, both orders fail. *)
Theorem contrast_swap_negates (design : Design) (column a b : string) :
  match contrast design column a b, contrast design column b a with
  | Ok v, Ok w => Forall2 Qeq v (map Qopp w)
  | Err _, Err _ => True
  | _, _ => False
  end.
Proof.
  unfold contrast.
  destruct (cond design {[column := VStr a]}) as [ca|ea];
  destruct (cond design {[column := VStr b]}) as [cb|eb]; simpl; auto.
  apply vsub_antisym.
Qed.

Example contrast_swap_condition :
  contrast design_condition "condition" "A" "B" = Ok [0; -1]%Q /\
  contrast design_condition "condition" "B" "A" = Ok [0; 1]%Q.
Proof. split; vm_compute; reflexivity. Qed.

(** C9: on a design given as a plain matrix, [cond] always raises the
    RuntimeError telling the caller to provide a contrast vector. *)
Theorem cond_raw_design_raises (m : list (list Q)) (kwargs : gmap string value) :
  cond (RawMatrix m) kwargs = Err (PyExn RuntimeError cond_msg) /\
  (exists pre, cond_msg = pre ++ "Please manually provide a contrast vector.").
Proof.
  split; [reflexivity |].
  exists ("Building contrasts with `cond` only works if you specified the model using a "
          ++ "formulaic formula. ").
  vm_compute. reflexivity.
Qed.

(** C4: in ["~ condition * group"] (condition in {B, C}, reference B;
    group in {A, B}), the interaction column
    ["condition[T.C]:group[T.B]"] starts with ["condition["] and the
    regex reads its last level, B, as a present category of condition.
    No category is left over, so omitting [condition] fails the
    assertion, while [condition="B"] gives the intercept row. *)
Theorem cond_omitted_differs_from_reference :
  ~ In "condition[T.B]" (columns spec_interaction) /\
  cond (ModelMatrix spec_interaction) {[ "condition" := VStr "B" ]} = Ok [1; 0; 0; 0]%Q /\
  cond (ModelMatrix spec_interaction) ∅ = Err (PyExn AssertionError "").
Proof.
  split; [| split; vm_compute; reflexivity].
  vm_compute. intros H. repeat (destruct H as [H | H]; [discriminate H |]). exact H.
Qed.

(** Where the level derived from the column names is the reference level
    (main-effect treatment coding), setting a variable to it is the same as
    omitting it. *)
Lemma dropped_level_mem spec var all c :
  dropped_level spec var all = Ok c -> mem c all = true.
Proof.
  unfold dropped_level. destruct (mapM _ _) as [present|e]; simpl; [|discriminate].
  destruct (List.filter _ all) as [|c' [|]] eqn:Hf; try discriminate.
  intros [= <-]. assert (Hin : In c' (List.filter (fun c => negb (mem c present)) all))
    by (rewrite Hf; left; reflexivity).
  apply filter_In in Hin as [Hin _]. apply existsb_exists. exists c'.
  split; [exact Hin | apply String.eqb_refl].
Qed.

Lemma fill_var_other spec kw var r v :
  v <> var ->
  fill_var spec (<[var := r]> kw) v = (kw' ← fill_var spec kw v; Ok (<[var := r]> kw')).
Proof.
  intros Hne. unfold fill_var.
  destruct (encoder_lookup spec v) as [e|e]; simpl; [|reflexivity].
  rewrite lookup_insert_ne by congruence.
  destruct (kw !! v) as [x|].
  - destruct (_ && _); reflexivity.
  - destruct (negb _); simpl.
    + f_equal. apply insert_insert_ne. congruence.
    + destruct (dropped_level spec v _); simpl; [|reflexivity].
      f_equal. apply insert_insert_ne. congruence.
Qed.

Lemma fill_var_keeps_other spec kw kw' var v :
  v <> var -> fill_var spec kw v = Ok kw' -> kw' !! var = kw !! var.
Proof.
  intros Hne. unfold fill_var.
  destruct (encoder_lookup spec v) as [e|e]; simpl; [|discriminate].
  destruct (kw !! v) as [x|].
  - destruct (_ && _); [discriminate | congruence].
  - destruct (negb _); simpl.
    + intros [= <-]. apply lookup_insert_ne. congruence.
    + destruct (dropped_level spec v _); simpl; [|discriminate].
      intros [= <-]. apply lookup_insert_ne. congruence.
Qed.

Lemma fill_defaults_reference spec var ref cats :
  encoder_lookup spec var = Ok (EncoderEntry Categorical cats) ->
  dropped_level spec var (dedup cats) = Ok ref ->
  forall vs kw, kw !! var = None -> In var vs ->
  fill_defaults spec (<[var := VStr ref]> kw) vs = fill_defaults spec kw vs.
Proof.
  intros Henc Hdrop vs. induction vs as [|v vs IH]; intros kw Hnone Hin; [destruct Hin|].
  simpl. destruct (String.eqb_spec v var) as [->|Hne].
  - assert (Hmem := dropped_level_mem _ _ _ _ Hdrop).
    unfold fill_var at 1 2. rewrite Henc. simpl.
    rewrite lookup_insert_eq, Hnone. simpl. rewrite Hmem. simpl. rewrite Hdrop. reflexivity.
  - destruct Hin as [Heq|Hin]; [congruence|].
    rewrite fill_var_other by exact Hne.
    destruct (fill_var spec kw v) as [kw'|e] eqn:Hf; simpl; [|reflexivity].
    apply IH; [|exact Hin].
    rewrite (fill_var_keeps_other _ _ _ _ _ Hne Hf). exact Hnone.
Qed.

Lemma cond_reference_as_omitted spec var ref cats kw :
  In var (variables spec) -> kw !! var = None ->
  encoder_lookup spec var = Ok (EncoderEntry Categorical cats) ->
  dropped_level spec var (dedup cats) = Ok ref ->
  cond (ModelMatrix spec) (<[var := VStr ref]> kw) = cond (ModelMatrix spec) kw.
Proof.
  intros Hin Hnone Henc Hdrop. simpl.
  rewrite (fill_defaults_reference spec var ref cats Henc Hdrop _ kw Hnone Hin).
  reflexivity.
Qed.

Example cond_reference_as_omitted_condition :
  cond design_condition {[ "condition" := VStr "A" ]} = cond design_condition ∅.
Proof.
  rewrite <- insert_empty.
  apply (cond_reference_as_omitted _ "condition" "A" ["A"; "B"]);
    [left; reflexivity | reflexivity | vm_compute; reflexivity | vm_compute; reflexivity].
Qed.

(* ------------------------------------------------------------------ *)
(** ** [sort_values] reorders the rows *)

Lemma lookup_nth_lt (a : list nat) (i : nat) : i < length a -> a !! i = Some (nth i a 0).
Proof.
  intros Hi. destruct (lookup_lt_is_Some_2 a i Hi) as [x Hx].
  rewrite Hx. f_equal. symmetry. apply nth_lookup_Some. exact Hx.
Qed.

Lemma swap_perm (a : list nat) (i j : nat) : Permutation (swap a i j) a.
Proof.
  unfold swap. destruct (Nat.ltb_spec i (length a)), (Nat.ltb_spec j (length a));
    cbn [andb]; try reflexivity.
  apply Permutation_insert_swap; apply lookup_nth_lt; assumption.
Qed.

Lemma cond_swap_perm (b : bool) (a : list nat) (i j : nat) :
  Permutation (if b then swap a i j else a) a.
Proof. destruct b; [apply swap_perm | reflexivity]. Qed.

Lemma fold_left_perm {X} (f : list nat -> X -> list nat) (l : list X) (a : list nat) :
  (forall a x, Permutation (f a x) a) -> Permutation (fold_left f l a) a.
Proof.
  intros Hf. revert a. induction l as [|x l IH]; intros a; [reflexivity|].
  cbn [fold_left]. etransitivity; [apply IH | apply Hf].
Qed.

Ltac swap_chain IH :=
  first [ reflexivity
        | etransitivity; [apply IH | apply swap_perm]
        | etransitivity; [apply IH | etransitivity; [apply swap_perm | reflexivity]] ].

Section NpySortPerm.
Variable lt : cell -> cell -> bool.
Variable v : list cell.

Lemma shift_left_perm pl d a : Permutation (shift_left lt v pl d a) a.
Proof.
  revert a. induction d as [|d IH]; intros a; cbn [shift_left]; [reflexivity|].
  destruct (less lt v a _ _); swap_chain IH.
Qed.

Lemma insertion_sort_perm pl pr a : Permutation (insertion_sort lt v pl pr a) a.
Proof. apply fold_left_perm. intros a' pi. apply shift_left_perm. Qed.

Lemma partition_loop_perm a p pi pj pl pr fuel :
  Permutation (fst (partition_loop lt v a p pi pj pl pr fuel)) a.
Proof.
  revert a pi pj. induction fuel as [|f IH]; intros a pi pj; cbn [partition_loop]; [reflexivity|].
  destruct (Nat.leb _ _); [reflexivity|]. swap_chain IH.
Qed.

Lemma partition_perm a pl pr : Permutation (fst (partition lt v a pl pr)) a.
Proof.
  unfold partition. cbv zeta.
  match goal with
  | |- context [partition_loop lt v ?x ?p ?i ?j ?l ?r ?f] =>
      pose proof (partition_loop_perm x p i j l r f) as HL;
      destruct (partition_loop lt v x p i j l r f) as [a5 pi]
  end.
  cbn [fst] in HL |- *.
  etransitivity; [apply swap_perm|]. etransitivity; [exact HL|].
  etransitivity; [apply swap_perm|].
  repeat (etransitivity; [apply cond_swap_perm|]). reflexivity.
Qed.

Lemma sift_perm a pl n i fuel : Permutation (sift lt v a pl n i fuel) a.
Proof.
  revert a i. induction fuel as [|f IH]; intros a i; cbn [sift]; [reflexivity|].
  destruct (Nat.ltb n (2 * i)); [reflexivity|]. cbv zeta.
  repeat case_match; swap_chain IH.
Qed.

Lemma heapsort_perm a pl n : Permutation (heapsort lt v a pl n) a.
Proof.
  unfold heapsort. cbv zeta.
  etransitivity; [apply fold_left_perm|].
  - intros a' m. etransitivity; [apply sift_perm | apply swap_perm].
  - apply fold_left_perm. intros a' l. apply sift_perm.
Qed.

Lemma quick_perm fuel a pl pr cdepth check :
  Permutation (quick lt v fuel a pl pr cdepth check) a.
Proof.
  revert a pl pr cdepth check. induction fuel as [|f IH]; intros a pl pr cdepth check;
    cbn [quick]; [reflexivity|].
  destruct (check && _)%bool; [apply heapsort_perm|].
  destruct (Nat.ltb 16 (pr - pl)); [|apply insertion_sort_perm].
  pose proof (partition_perm a pl pr) as HP.
  destruct (partition lt v a pl pr) as [a' pi]. cbn [fst] in HP.
  destruct (Nat.ltb _ _); (etransitivity; [apply IH|]); (etransitivity; [apply IH|]); exact HP.
Qed.

Lemma npy_aquicksort_perm : Permutation (npy_aquicksort lt v) (seq 0 (length v)).
Proof.
  unfold npy_aquicksort. destruct (length v) as [|n]; [reflexivity|]. apply quick_perm.
Qed.
End NpySortPerm.

Lemma map_nth_seq_self {A} (l : list A) (d : A) :
  map (fun i => nth i l d) (seq 0 (length l)) = l.
Proof.
  induction l as [|x l IH]; [reflexivity|]. cbn [length seq map nth].
  rewrite <- seq_shift, map_map. cbn. f_equal. exact IH.
Qed.

Lemma filter_complement_perm {A} (f : A -> bool) (l : list A) :
  Permutation (List.filter (fun x => negb (f x)) l ++ List.filter f l) l.
Proof.
  induction l as [|x l IH]; [reflexivity|]. cbn [List.filter].
  destruct (f x); cbn [negb app].
  - etransitivity; [symmetry; apply Permutation_middle | apply perm_skip, IH].
  - apply perm_skip, IH.
Qed.

Lemma nargsort_object_perm (col : list cell) :
  Permutation (nargsort_object col) (seq 0 (length col)).
Proof.
  unfold nargsort_object.
  set (nn := List.filter (fun i => negb (isna (nth i col CNaN))) (seq 0 (length col))).
  set (na := List.filter (fun i => isna (nth i col CNaN)) (seq 0 (length col))).
  etransitivity; [|apply (filter_complement_perm (fun i => isna (nth i col CNaN)))].
  apply Permutation_app_tail. fold nn.
  etransitivity.
  - apply Permutation_map, npy_aquicksort_perm.
  - rewrite length_map. rewrite map_nth_seq_self. reflexivity.
Qed.

Lemma insert_by_perm k r l : Permutation (insert_by k r l) (r :: l).
Proof.
  induction l as [|r' l IH]; cbn [insert_by]; [reflexivity|].
  destruct (cell_leb _ _); [reflexivity|].
  etransitivity; [apply perm_skip, IH | apply perm_swap].
Qed.

Lemma sort_rows_perm k l : Permutation (sort_rows k l) l.
Proof.
  induction l as [|r l IH]; cbn [sort_rows]; [reflexivity|].
  etransitivity; [apply insert_by_perm | apply perm_skip, IH].
Qed.

(** [sort_values] keeps the columns and permutes the rows. *)
Lemma sort_values_perm k t t' :
  sort_values k t = Ok t' -> tcols t' = tcols t /\ Permutation (trows t') (trows t).
Proof.
  unfold sort_values. destruct (mem k (tcols t)); [|discriminate].
  destruct (is_object_column _); intros [= <-]; (split; [reflexivity|]); cbn [trows].
  - etransitivity; [apply Permutation_map, nargsort_object_perm|].
    rewrite length_map, map_nth_seq_self. reflexivity.
  - apply sort_rows_perm.
Qed.

Lemma sort_values_ok k t : mem k (tcols t) = true -> exists t', sort_values k t = Ok t'.
Proof.
  intros H. unfold sort_values. rewrite H. destruct (is_object_column _); eexists; reflexivity.
Qed.

(* ------------------------------------------------------------------ *)
(** ** Adjusted p-values of the [Statsmodels] adapter *)

(** Corrected on its own, a p-value in [0, 1] is unchanged. *)
Lemma fdrcorrection_single (p : Q) :
  (0 <= p <= 1)%Q -> (nth 0 (fdrcorrection [p]) 0 == p)%Q.
Proof.
  intros [H0 H1]. unfold fdrcorrection. simpl.
  change (inject_Z (Z.of_nat 1)) with (inject_Z 1).
  assert (Hd : (p / (inject_Z 1 / inject_Z 1) == p)%Q) by (field; discriminate).
  destruct (Qle_bool (p / (inject_Z 1 / inject_Z 1)) 1) eqn:Hle; simpl.
  - exact Hd.
  - exfalso. rewrite Hd in Hle. apply not_true_iff_false in Hle. apply Hle.
    apply Qle_bool_iff. exact H1.
Qed.

(** C2: [Statsmodels._test_single_contrast] applies [fdrcorrection] to the
    one-element array of each feature, so the adjusted p-values of two
    features with p = 0.01 and 0.04 are 0.01 and 0.04, whereas the
    Benjamini-Hochberg correction of the contrast's vector gives 0.02 and
    0.04. *)
Theorem statsmodels_adj_pvalue_is_per_feature :
  (exists t,
     Statsmodels_test_single_contrast pvalue_model_test
       (MkSMState method_example (Some [1#100; 4#100]%Q)) tt = Ok t /\
     adj_column t = [1#100; 1#25]%Q) /\
  map Qred (fdrcorrection [1#100; 4#100]%Q) = [1#50; 1#25]%Q.
Proof.
  split; [eexists; split; vm_compute; reflexivity | vm_compute; reflexivity].
Qed.

(* ------------------------------------------------------------------ *)
(** ** [test_contrasts] *)

Lemma assign_contrast_rows v t : trows (assign "contrast" v t) = map (tag_row v) (trows t).
Proof. reflexivity. Qed.

Lemma set_entry_assoc k v d : assoc k (set_entry k v d) = Some v.
Proof.
  induction d as [|[k' v'] d IH]; simpl.
  - rewrite String.eqb_refl. reflexivity.
  - destruct (String.eqb k k') eqn:Hk; simpl.
    + rewrite String.eqb_refl. reflexivity.
    + rewrite Hk. exact IH.
Qed.

Lemma tag_row_contrast v r : get_cell (tag_row v r) "contrast" = v.
Proof. unfold get_cell, tag_row. simpl. rewrite set_entry_assoc. reflexivity. Qed.

Lemma mapM_tagged {C} (test : C -> result Table) (items : list (string * C)) tables :
  mapM test (map snd items) = Ok tables ->
  mapM (fun '(name, c) => t ← test c; Ok (assign "contrast" (name_cell name) t))
       (map (fun '(n, c) => (Some n, c)) items)
  = Ok (zip_with (fun n t => assign "contrast" (CText n) t) (map fst items) tables).
Proof.
  revert tables. induction items as [|[n c] items IH]; intros tables; simpl.
  - intros [= <-]. reflexivity.
  - destruct (test c) as [t|e]; simpl; [|discriminate].
    destruct (mapM test (map snd items)) as [ts|e]; simpl; [|discriminate].
    intros [= <-]. rewrite (IH ts eq_refl). reflexivity.
Qed.

Lemma flat_map_tagged (names : list string) (tables : list Table) :
  flat_map trows (zip_with (fun n t => assign "contrast" (CText n) t) names tables)
  = flat_map (fun '(n, tb) => map (tag_row (CText n)) (trows tb)) (combine names tables).
Proof.
  revert tables. induction names as [|n names IH]; intros [|tb tables]; simpl; try reflexivity.
  rewrite IH. reflexivity.
Qed.

Lemma mapM_length_result {A B} (f : A -> result B) l l' :
  mapM f l = Ok l' -> length l' = length l.
Proof.
  revert l'. induction l as [|x l IH]; intros l'; simpl.
  - intros [= <-]. reflexivity.
  - destruct (f x); simpl; [|discriminate].
    destruct (mapM f l) as [k|e] eqn:Hk; simpl; [|discriminate].
    intros [= <-]. simpl. f_equal. apply IH. reflexivity.
Qed.

(** C6 (as the code holds it): for a non-empty dict whose contrasts all
    test, the rows are those of the per-contrast tables in dict order,
    each tagged with its name in the ["contrast"] column; a single
    contrast gives its table with ["contrast"] set to None in every row. *)
Theorem test_contrasts_concatenates_tagged {C : Type} (test : C -> result Table) :
  (forall (items : list (string * C)) (tables : list Table),
     items <> [] -> mapM test (map snd items) = Ok tables ->
     exists t, test_contrasts test (CDict items) = Ok t /\
       trows t = flat_map (fun '(n, tb) => map (tag_row (CText n)) (trows tb))
                          (combine (map fst items) tables)) /\
  (forall (c : C) (tb : Table), test c = Ok tb ->
     exists t, test_contrasts test (CSingle c) = Ok t /\
       trows t = map (tag_row CNone) (trows tb) /\
       Forall (fun r => get_cell r "contrast" = CNone) (trows t)).
Proof.
  split.
  - intros items tables Hne Hm. unfold test_contrasts.
    rewrite (mapM_tagged test items tables Hm). simpl.
    destruct items as [|[n c] items]; [congruence|].
    destruct tables as [|tb tables].
    { apply mapM_length_result in Hm. discriminate Hm. }
    eexists. split; [reflexivity|]. simpl.
    rewrite flat_map_tagged. reflexivity.
  - intros c tb Hc. unfold test_contrasts. simpl. rewrite Hc. simpl.
    eexists. split; [reflexivity|]. simpl. rewrite app_nil_r.
    split; [reflexivity|].
    apply List.Forall_forall. intros r Hr.
    apply in_map_iff in Hr as [r0 [<- _]]. apply tag_row_contrast.
Qed.

Lemma test_contrasts_concatenates_tagged_witness :
  exists t, test_contrasts pvalue_table (CDict [("a", 1%nat); ("b", 2%nat)]) = Ok t /\
    trows t = flat_map (fun '(n, tb) => map (tag_row (CText n)) (trows tb))
                (combine ["a"; "b"] [MkTable ["pvalue"] [MkRow (CQ 0) [("pvalue", CQ 1)]];
                                     MkTable ["pvalue"] [MkRow (CQ 0) [("pvalue", CQ 2)]]]).
Proof.
  apply (proj1 (test_contrasts_concatenates_tagged pvalue_table)).
  - discriminate.
  - reflexivity.
Defined.

(** C6 as stated fails on the empty dict: [pd.concat([])] raises. *)
Lemma test_contrasts_empty_dict_raises :
  test_contrasts pvalue_table (CDict []) = Err (PyExn ValueError "No objects to concatenate").
Proof. reflexivity. Qed.

(* ------------------------------------------------------------------ *)
(** ** Fitting twice *)

(** [StatsmodelsDE.fit] rebuilds [self.models] from the unchanged data and
    design, so a second fit leaves the instance as the first one did. *)
Lemma StatsmodelsDE_fit_idempotent {Model} (regression_model : list cell -> Design -> Model)
    (st st' : SMState Model) :
  StatsmodelsDE_fit regression_model st = Ok st' ->
  StatsmodelsDE_fit regression_model st' = Ok st'.
Proof.
  unfold StatsmodelsDE_fit.
  destruct (mapM _ _) as [ys|e] eqn:Hys; simpl; [|discriminate].
  intros [= <-]. simpl. rewrite Hys. reflexivity.
Qed.

(** C3: [EdgeRDE.fit] stores the R fit in [self.fit], which hides the
    method: after a successful fit, calling [fit] again raises a TypeError. *)
Theorem edger_second_fit_raises {RObject : Type} (r_available : bool)
    (glmQLFit : Matrix -> AnnData -> Design -> RObject) (m : Method) (st : EdgeRState RObject) :
  EdgeRDE_call_fit r_available glmQLFit (fresh_EdgeR m) = Ok st ->
  EdgeRDE_call_fit r_available glmQLFit st = Err (PyExn TypeError "'RS4' object is not callable").
Proof.
  unfold EdgeRDE_call_fit at 1. simpl. unfold EdgeRDE_fit_body.
  destruct r_available; simpl; [|discriminate].
  destruct (layer_matrix _ _) as [expr|e]; simpl; [|discriminate].
  intros [= <-]. reflexivity.
Qed.

Lemma edger_second_fit_raises_witness :
  EdgeRDE_call_fit true (fun _ _ _ => tt) (fresh_EdgeR method_example)
    = Ok (MkEdgeRState method_example (Some tt)) /\
  EdgeRDE_call_fit true (fun _ _ _ => tt) (MkEdgeRState method_example (Some tt))
    = Err (PyExn TypeError "'RS4' object is not callable").
Proof.
  assert (H1 : EdgeRDE_call_fit true (fun _ _ _ => tt) (fresh_EdgeR method_example)
               = Ok (MkEdgeRState method_example (Some tt))) by reflexivity.
  split; [exact H1 | exact (edger_second_fit_raises true (fun _ _ _ => tt) method_example _ H1)].
Defined.

(* ------------------------------------------------------------------ *)
(** ** Rows per contrast *)

Lemma WilcoxonTest__test_raises mannwhitneyu (m : Method) (contrast : list string) (v : string) :
  is_err (WilcoxonTest__test mannwhitneyu m contrast v) = true.
Proof.
  unfold WilcoxonTest__test.
  destruct (lookup_or_key_error _ _); simpl; [|reflexivity].
  destruct (anndata_getitem_mask_var _ _ _); simpl; [|reflexivity].
  destruct (anndata_getitem_obs _ _); simpl; reflexivity.
Qed.

(** C7: [WilcoxonTest._test_single_contrast] indexes the AnnData object
    itself with the column name ([self.adata[contrast[0]] == ...]) and
    compares AnnData objects, which raises; on a matrix with at least one
    feature it never returns a table, let alone one row per feature. *)
Theorem wilcoxon_test_single_contrast_raises mannwhitneyu log_fold_change
    (m : Method) (contrast : list string) :
  var_names (m_adata m) <> [] ->
  is_err (WilcoxonTest_test_single_contrast mannwhitneyu log_fold_change m contrast) = true.
Proof.
  intros Hne. unfold WilcoxonTest_test_single_contrast.
  destruct (negb _); [reflexivity|].
  destruct (var_names (m_adata m)) as [|v vs]; [congruence|].
  assert (H : is_err (WilcoxonTest_record mannwhitneyu log_fold_change m contrast v) = true).
  { unfold WilcoxonTest_record.
    pose proof (WilcoxonTest__test_raises mannwhitneyu m contrast v) as H.
    destruct (WilcoxonTest__test mannwhitneyu m contrast v); [discriminate|reflexivity]. }
  simpl. destruct (WilcoxonTest_record mannwhitneyu log_fold_change m contrast v);
    [discriminate | reflexivity].
Qed.

Lemma wilcoxon_test_single_contrast_raises_witness :
  var_names (m_adata method_example) <> [] /\
  is_err (WilcoxonTest_test_single_contrast (fun _ _ => 0%Q) (fun _ _ => CNone)
            method_example ["condition"; "A"; "B"]) = true.
Proof.
  assert (H : var_names (m_adata method_example) <> []) by discriminate.
  split; [exact H|].
  exact (wilcoxon_test_single_contrast_raises (fun _ _ => 0%Q) (fun _ _ => CNone)
           method_example ["condition"; "A"; "B"] H).
Defined.

(** With no features the linear-model table has no ["pvalue"] column to
    sort on. *)
Example statsmodels_no_features_raises :
  StatsmodelsDE_test_single_contrast pvalue_model_test
    (MkSMState (MkMethod (MkAnnData ["s0"] [] [] [] (MkMatrix DFloat [[]]) []) None design_condition)
               (Some [])) tt
  = Err (PyExn KeyError "pvalue").
Proof. reflexivity. Qed.

(* ------------------------------------------------------------------ *)
(** ** Count validation in [BaseMethod.__init__] *)

Lemma existsb_nan_or_inf rows :
  existsb (existsb (fun c => match c with CNaN | CPosInf | CNegInf => true | _ => false end)) rows
    = true ->
  existsb (existsb (fun c => match c with CNaN => true | _ => false end)) rows
  || existsb (existsb (fun c => match c with CPosInf | CNegInf => true | _ => false end)) rows
    = true.
Proof.
  intros H. apply existsb_exists in H as [row [Hrow Hc]].
  apply existsb_exists in Hc as [c [Hc Hbad]].
  apply orb_true_iff.
  destruct c as [q| | | |s| |x]; try discriminate Hbad;
    [left | right | right]; apply existsb_exists; exists row; (split; [exact Hrow|]);
    apply existsb_exists; eexists; (split; [exact Hc | reflexivity]).
Qed.

(** Without mask and layer, a NaN or Inf in [X], or an object dtype, makes the
    constructor raise. *)
Lemma init_rejects_bad_X model_matrix _check_counts (adata : AnnData) (design : design_arg) :
  has_nan_or_inf (X adata) = true \/ m_dtype (X adata) = DObject ->
  is_err (BaseMethod_init model_matrix _check_counts adata design None None) = true.
Proof.
  intros H. unfold BaseMethod_init. simpl. unfold isnan_any, isinf_any.
  destruct (m_dtype (X adata)) eqn:Hd; simpl.
  1, 2: destruct H as [H | H]; [|discriminate H];
        unfold has_nan_or_inf in H; apply existsb_nan_or_inf in H; rewrite H; reflexivity.
  reflexivity.
Qed.

(** C8: the checks read [adata.X] only. With [layer="counts"] and a NaN
    in that layer, the constructor succeeds and [fit] reads the NaN. *)
Theorem init_accepts_nan_in_layer :
  exists (m : Method) (counts : Matrix),
    BaseMethod_init no_formula_engine check_counts_true adata_example
      (DesignGiven design_condition) None (Some "counts") = Ok m /\
    layer_matrix (m_adata m) (m_layer m) = Ok counts /\
    has_nan_or_inf counts = true /\
    obs_df_column (m_adata m) (m_layer m) "g0" = Ok [CNaN; CQ 3; CQ 5; CQ 7].
Proof.
  exists (MkMethod adata_example (Some "counts") design_condition), counts_with_nan.
  split; [vm_compute; reflexivity|].
  split; [reflexivity|]. split; reflexivity.
Qed.

(** The linear-model table has one row per feature once [fit] has run on
    a matrix with at least one feature, when statsmodels accepts the
    contrast. *)
Lemma sort_rows_length k l : length (sort_rows k l) = length l.
Proof.
  induction l as [|r l IH]; simpl; [reflexivity|].
  rewrite <- IH. generalize (sort_rows k l). intros l'.
  induction l' as [|r' l' IH']; simpl; [reflexivity|].
  destruct (cell_leb _ _); simpl; [reflexivity | rewrite IH'; reflexivity].
Qed.

Lemma mem_fold_nub x l acc :
  mem x (fold_left (fun acc y => if mem y acc then acc else app acc [y]) l acc)
  = mem x acc || mem x l.
Proof.
  revert acc. induction l as [|y l IH]; intros acc; simpl.
  - rewrite orb_false_r. reflexivity.
  - rewrite IH. destruct (mem y acc) eqn:Hy.
    + destruct (String.eqb_spec x y) as [->|]; simpl.
      * rewrite Hy. reflexivity.
      * reflexivity.
    + unfold mem at 1. rewrite existsb_app. simpl. fold (mem x acc).
      destruct (String.eqb x y); simpl; rewrite ?orb_true_r, ?orb_false_r, ?orb_true_l; reflexivity.
Qed.

Lemma DataFrame_rows res : n_rows (DataFrame res) = length res.
Proof. unfold n_rows, DataFrame. simpl. rewrite length_imap. reflexivity. Qed.

Lemma DataFrame_has_col res r k :
  In r res -> mem k (map fst r) = true -> mem k (tcols (DataFrame res)) = true.
Proof.
  intros Hr Hk. unfold DataFrame, nub. simpl. rewrite mem_fold_nub. simpl.
  unfold mem in *. apply existsb_exists in Hk as [k' [Hk' Heq]].
  apply existsb_exists. exists k'. split; [|exact Heq].
  apply in_flat_map. exists r. split; assumption.
Qed.

Lemma mapM_ok {A B} (f : A -> result B) (l : list A) :
  (forall x, In x l -> is_err (f x) = false) -> exists l', mapM f l = Ok l'.
Proof.
  induction l as [|x l IH]; intros H; simpl; [eexists; reflexivity|].
  destruct (f x) eqn:Hf; simpl;
    [|specialize (H x (or_introl eq_refl)); rewrite Hf in H; discriminate H].
  destruct IH as [l' Hl]; [intros y Hy; apply H; right; exact Hy|].
  rewrite Hl. simpl. eexists; reflexivity.
Qed.

Lemma mapM_in {A B} (f : A -> result B) l l' y :
  mapM f l = Ok l' -> In y l' -> exists x, In x l /\ f x = Ok y.
Proof.
  revert l'. induction l as [|x l IH]; intros l'; simpl.
  - intros [= <-] [].
  - destruct (f x) as [b|e] eqn:Hf; simpl; [|discriminate].
    destruct (mapM f l) as [k|e] eqn:Hk; simpl; [|discriminate].
    intros [= <-] [<-|Hy]; [exists x; split; [left; reflexivity | exact Hf]|].
    destruct (IH k eq_refl Hy) as [x' [Hx' Hf']].
    exists x'. split; [right; exact Hx' | exact Hf'].
Qed.

Lemma mapM_map_eq {A B C} (f : A -> result B) (g : B -> C) (h : A -> C) l l' :
  (forall x y, f x = Ok y -> g y = h x) -> mapM f l = Ok l' -> map g l' = map h l.
Proof.
  intros Hgh. revert l'. induction l as [|x l IH]; intros l'; simpl.
  - intros [= <-]. reflexivity.
  - destruct (f x) as [b|e] eqn:Hf; simpl; [|discriminate].
    destruct (mapM f l) as [k|e] eqn:Hk; simpl; [|discriminate].
    intros [= <-]. cbn [map]. rewrite (Hgh _ _ Hf), (IH k eq_refl). reflexivity.
Qed.

Lemma StatsmodelsDE_test_rows {Model Contrast} (t_test : Model -> Contrast -> result TTest)
    (m : Method) (ms : list Model) (c : Contrast) :
  length ms = length (var_names (m_adata m)) -> var_names (m_adata m) <> [] ->
  (forall md, is_err (t_test md c) = false) ->
  exists t, StatsmodelsDE_test_single_contrast t_test (MkSMState m (Some ms)) c = Ok t /\
            n_rows t = length (var_names (m_adata m)).
Proof.
  intros Hlen Hne Hok. unfold StatsmodelsDE_test_single_contrast, models_or_error.
  cbn [sm_models sm_method mbind result_bind].
  set (vs := var_names (m_adata m)) in *.
  destruct (mapM_ok (fun '(v, md) => StatsmodelsDE_record t_test v md c) (combine vs ms))
    as [res Hres].
  { intros [v md] _. unfold StatsmodelsDE_record. specialize (Hok md).
    destruct (t_test md c); [reflexivity | discriminate Hok]. }
  rewrite Hres. cbn [mbind result_bind].
  assert (Hl : length res = length vs).
  { apply mapM_length_result in Hres. rewrite Hres, length_combine, Hlen. apply Nat.min_id. }
  destruct res as [|r rs] eqn:Eres; [destruct vs; [congruence | discriminate Hl]|].
  rewrite <- Eres in Hres, Hl |- *.
  assert (Hr : In r res) by (rewrite Eres; left; reflexivity).
  destruct (mapM_in _ _ _ r Hres Hr) as [[v md] [_ Hrec]].
  unfold StatsmodelsDE_record in Hrec.
  destruct (t_test md c) as [tt0|e]; cbn [mbind result_bind] in Hrec; [|discriminate Hrec].
  injection Hrec as Hrec.
  assert (Hp : mem "pvalue" (tcols (DataFrame res)) = true).
  { apply (DataFrame_has_col _ r _ Hr). rewrite <- Hrec. reflexivity. }
  assert (Hv : mem "variable" (tcols (DataFrame res)) = true).
  { apply (DataFrame_has_col _ r _ Hr). rewrite <- Hrec. reflexivity. }
  destruct (sort_values_ok _ _ Hp) as [t1 Hs]. rewrite Hs. cbn [mbind result_bind].
  destruct (sort_values_perm _ _ _ Hs) as [Hcols Hperm].
  unfold set_index. rewrite Hcols, Hv.
  eexists. split; [reflexivity|]. unfold n_rows. cbn [trows].
  rewrite length_map, (Permutation_length Hperm).
  fold (n_rows (DataFrame res)). rewrite DataFrame_rows. exact Hl.
Qed.

Lemma StatsmodelsDE_rows_per_feature {Model Contrast}
    (regression_model : list cell -> Design -> Model) (t_test : Model -> Contrast -> result TTest)
    (st st' : SMState Model) (c : Contrast) :
  StatsmodelsDE_fit regression_model st = Ok st' ->
  var_names (m_adata (sm_method st)) <> [] ->
  (forall md, is_err (t_test md c) = false) ->
  exists t, StatsmodelsDE_test_single_contrast t_test st' c = Ok t /\
            n_rows t = length (var_names (m_adata (sm_method st))).
Proof.
  unfold StatsmodelsDE_fit.
  destruct (mapM _ _) as [ys|e] eqn:Hys; cbn [mbind result_bind]; [|discriminate].
  intros [= <-] Hne Hok. apply mapM_length_result in Hys.
  apply StatsmodelsDE_test_rows; [rewrite length_map; exact Hys | exact Hne | exact Hok].
Qed.


(* ------------------------------------------------------------------ *)
(** ** The edgeR contrast vector (methods/_edger.py) *)

Lemma mem_index_of_none x l : mem x l = false <-> index_of x l = None.
Proof.
  induction l as [|y l IH]; simpl; [tauto|].
  unfold mem in *. simpl. destruct (String.eqb x y); simpl; [split; discriminate|].
  rewrite IH. destruct (index_of x l); simpl; split; congruence.
Qed.

Lemma edger_step_ok cols contrast v index key :
  make_contrast_column_key contrast index = Ok key ->
  edger_contrast_step cols contrast (Ok v) index =
  Ok (match index_of key cols with Some i => <[i := 1%Z]> v | None => v end).
Proof.
  intros Hk. unfold edger_contrast_step. cbn [mbind result_bind]. rewrite Hk.
  cbn [mbind result_bind].
  destruct (mem key cols) eqn:Hm.
  - destruct (index_of key cols) eqn:Hi; [reflexivity|].
    apply mem_index_of_none in Hi. congruence.
  - apply mem_index_of_none in Hm. rewrite Hm. reflexivity.
Qed.

Lemma edger_contrast_vec_keys spec column a b :
  edger_contrast_vec (ModelMatrix spec) [column; a; b] =
  let cols := columns spec in
  let set k v := match index_of k cols with Some i => <[i := 1%Z]> v | None => v end in
  Ok (set (column ++ "[T." ++ b ++ "]") (set (column ++ "[T." ++ a ++ "]")
        (repeat 0%Z (length cols)))).
Proof.
  unfold edger_contrast_vec. cbn [design_columns mbind result_bind fold_left].
  rewrite (edger_step_ok _ _ _ 1 (column ++ "[T." ++ a ++ "]")) by reflexivity.
  rewrite (edger_step_ok _ _ _ 2 (column ++ "[T." ++ b ++ "]")) by reflexivity.
  reflexivity.
Qed.

(** The vector built for the contrast [column, a, b] is the one built for
    [column, b, a]: both levels' columns are set to 1, so the order of
    baseline and compared level (the sign of the comparison) is lost. *)
Theorem edger_contrast_vec_symmetric (design : Design) (column a b : string) :
  edger_contrast_vec design [column; a; b] = edger_contrast_vec design [column; b; a].
Proof.
  destruct design as [m|spec]; [reflexivity|].
  rewrite !edger_contrast_vec_keys. cbv beta zeta.
  destruct (index_of (column ++ "[T." ++ a ++ "]") (columns spec)) as [i|];
  destruct (index_of (column ++ "[T." ++ b ++ "]") (columns spec)) as [j|]; try reflexivity.
  destruct (decide (i = j)) as [->|Hne]; [reflexivity|].
  f_equal. apply list_insert_insert_ne. congruence.
Qed.

Lemma insert_map_seq (f : nat -> Z) (x : Z) (i s n : nat) :
  <[i := x]> (map f (seq s n)) = map (fun j => if Nat.eqb j (s + i) then x else f j) (seq s n).
Proof.
  revert i s. induction n as [|n IH]; intros i s; [reflexivity|].
  simpl seq. simpl map. destruct i as [|i].
  - cbn [insert list_insert]. rewrite Nat.add_0_r, Nat.eqb_refl. f_equal.
    apply map_ext_in. intros j Hj. apply in_seq in Hj.
    destruct (Nat.eqb_spec j s); [lia | reflexivity].
  - cbn [insert list_insert]. fold (<[i := x]> (map f (seq (S s) n))).
    rewrite IH. destruct (Nat.eqb_spec s (s + S i)); [lia|]. f_equal.
    apply map_ext. intros j. replace (S s + i) with (s + S i) by lia. reflexivity.
Qed.

Lemma repeat_map_seq (z : Z) (s n : nat) : repeat z n = map (fun _ => z) (seq s n).
Proof.
  revert s. induction n as [|n IH]; intros s; [reflexivity|]. simpl. f_equal. apply IH.
Qed.

(** For the contrast [column, baseline, group] on a formulaic design with
    columns [cols], the vector has one entry per column: 1 at the first
    column named [column[T.baseline]] and at the first one named
    [column[T.group]], 0 elsewhere. A level without a column (the
    reference level) adds nothing, and no entry is -1. *)
Theorem edger_contrast_vec_entries (spec : ModelSpec) (column baseline group : string) :
  let cols := columns spec in
  let hit key j := match index_of key cols with Some i => Nat.eqb j i | None => false end in
  edger_contrast_vec (ModelMatrix spec) [column; baseline; group] =
  Ok (map (fun j => if hit (column ++ "[T." ++ baseline ++ "]") j
                       || hit (column ++ "[T." ++ group ++ "]") j then 1%Z else 0%Z)
          (seq 0 (length cols))).
Proof.
  cbv zeta. rewrite edger_contrast_vec_keys. cbv beta zeta. f_equal.
  rewrite (repeat_map_seq 0%Z 0).
  destruct (index_of (column ++ "[T." ++ baseline ++ "]") (columns spec)) as [i|];
  destruct (index_of (column ++ "[T." ++ group ++ "]") (columns spec)) as [j|];
  rewrite ?insert_map_seq; simpl; apply map_ext; intros k;
  repeat match goal with |- context [Nat.eqb ?a ?b] => destruct (Nat.eqb a b) end;
  reflexivity.
Qed.

(* ------------------------------------------------------------------ *)
(** ** The design factors passed to pydeseq2 *)

Lemma list_ascii_of_string_append (s t : string) :
  list_ascii_of_string (s ++ t) = app (list_ascii_of_string s) (list_ascii_of_string t).
Proof. induction s as [|c s IH]; simpl; [reflexivity | rewrite IH; reflexivity]. Qed.

Lemma split_first_dummy (v l : string) :
  has_bracket v = false -> split_first "[" (dummy_name v l) = v.
Proof.
  unfold dummy_name, has_bracket. induction v as [|c v IH]; [reflexivity|].
  intros H. cbn [list_ascii_of_string String.append existsb] in H.
  apply orb_false_iff in H as [Hc H].
  change (String c v ++ ?r) with (String c (v ++ r)). cbn [split_first].
  rewrite Ascii.eqb_sym in Hc. rewrite Hc, IH by exact H. reflexivity.
Qed.

Lemma dummy_not_intercept (v l : string) : String.eqb (dummy_name v l) "Intercept" = false.
Proof.
  apply String.eqb_neq. intros H.
  assert (Hb : has_bracket (dummy_name v l) = has_bracket "Intercept") by (rewrite H; reflexivity).
  unfold has_bracket, dummy_name in Hb. rewrite !list_ascii_of_string_append in Hb.
  rewrite !existsb_app in Hb. simpl in Hb. rewrite orb_true_r in Hb. discriminate Hb.
Qed.

Lemma cat_lookup_in (vars : list CatVar) (cv : CatVar) :
  NoDup (map cv_name vars) -> In cv vars -> cat_lookup vars (cv_name cv) = cv_levels cv.
Proof.
  unfold cat_lookup. induction vars as [|cv' vars IH]; intros Hnd Hin; [destruct Hin|].
  simpl in Hnd |- *. apply NoDup_cons in Hnd as [Hnotin Hnd].
  rewrite list_elem_of_In in Hnotin.
  destruct Hin as [->|Hin]; [rewrite String.eqb_refl; reflexivity|].
  destruct (String.eqb_spec (cv_name cv') (cv_name cv)) as [Heq|Hne].
  - exfalso. apply Hnotin. rewrite Heq. apply in_map. exact Hin.
  - apply IH; assumption.
Qed.

Lemma term_columns_single (vars : list CatVar) (v : string) :
  map col_name (term_columns vars [v]) = map (dummy_name v) (tl (cat_lookup vars v)).
Proof.
  cbn [term_columns]. generalize (tl (cat_lookup vars v)) as ls.
  induction ls as [|l ls IH]; [reflexivity|].
  simpl. f_equal. exact IH.
Qed.

Lemma filter_dummy_names (v : string) (ls : list string) :
  List.filter (fun col => negb (String.eqb col "Intercept")) (map (dummy_name v) ls)
  = map (dummy_name v) ls.
Proof.
  induction ls as [|l ls IH]; [reflexivity|].
  cbn [map List.filter]. rewrite dummy_not_intercept, IH. reflexivity.
Qed.

Lemma split_dummy_names (v : string) (ls : list string) :
  has_bracket v = false ->
  map (split_first "[") (map (dummy_name v) ls) = repeat v (length ls).
Proof.
  intros Hv. induction ls as [|l ls IH]; [reflexivity|].
  cbn [map repeat length]. rewrite split_first_dummy, IH by exact Hv. reflexivity.
Qed.

(** On a treatment-coded main-effects design ([~ v1 + v2 + ...]) whose
    variable names are distinct and contain no ["["], [PyDESeq2DE.fit]
    issues no intercept warning and passes as [design_factors] the name of
    each variable once per non-reference level: a variable with k levels
    is listed k - 1 times. *)
Theorem pydeseq2_design_factors_main_effects (vars : list CatVar) :
  NoDup (map cv_name vars) ->
  forallb (fun cv => negb (has_bracket (cv_name cv))) vars = true ->
  PyDESeq2DE_design_factors
    (ModelMatrix (treatment_spec vars ([] :: map (fun cv => [cv_name cv]) vars)))
  = Ok (false, flat_map (fun cv => repeat (cv_name cv) (length (tl (cv_levels cv)))) vars).
Proof.
  intros Hnd Hnames. unfold PyDESeq2DE_design_factors. cbn [design_columns mbind result_bind].
  unfold treatment_spec. cbn [columns]. cbn [flat_map term_columns app map].
  change (col_name []) with "Intercept".
  assert (Hsub : forall sub, (forall cv, In cv sub -> In cv vars) ->
    let cols := map col_name (flat_map (term_columns vars) (map (fun cv => [cv_name cv]) sub)) in
    List.filter (fun col => negb (String.eqb col "Intercept")) cols = cols /\
    map (split_first "[") cols
      = flat_map (fun cv => repeat (cv_name cv) (length (tl (cv_levels cv)))) sub).
  { induction sub as [|cv sub IH]; intros Hin; [split; reflexivity|].
    cbv zeta in IH |- *.
    destruct IH as [IH1 IH2]; [intros; apply Hin; right; assumption|].
    cbn [map flat_map]. rewrite map_app, term_columns_single.
    rewrite (cat_lookup_in vars cv Hnd (Hin cv (or_introl eq_refl))).
    assert (Hname : has_bracket (cv_name cv) = false).
    { apply forallb_forall with (x := cv) in Hnames; [|apply Hin; left; reflexivity].
      destruct (has_bracket (cv_name cv)); [discriminate | reflexivity]. }
    rewrite List.filter_app, map_app, IH1, IH2, filter_dummy_names, split_dummy_names
      by exact Hname.
    split; reflexivity. }
  destruct (Hsub vars (fun cv H => H)) as [H1 H2]. cbv zeta in H1, H2.
  unfold mem. cbn [existsb List.filter]. rewrite String.eqb_refl. cbn [orb negb].
  rewrite H1, H2. reflexivity.
Qed.

Lemma pydeseq2_design_factors_main_effects_witness :
  PyDESeq2DE_design_factors
    (ModelMatrix (treatment_spec [MkCatVar "condition" ["A"; "B"]; MkCatVar "donor" ["D0"; "D1"; "D2"]]
                   [[]; ["condition"]; ["donor"]]))
  = Ok (false, ["condition"; "donor"; "donor"]).
Proof.
  apply (pydeseq2_design_factors_main_effects
           [MkCatVar "condition" ["A"; "B"]; MkCatVar "donor" ["D0"; "D1"; "D2"]]).
  - apply (bool_decide_unpack _). vm_compute. reflexivity.
  - vm_compute. reflexivity.
Defined.

(* ------------------------------------------------------------------ *)
(** ** Errors in [test_contrasts] *)

(** If a contrast's test raises, [test_contrasts] raises the error of the
    first failing contrast in dict order and returns no partial table. *)
Theorem test_contrasts_first_error {C : Type} (test : C -> result Table)
    (before after : list (string * C)) (name : string) (c : C) (e : py_exn) :
  Forall (fun '(_, c') => is_err (test c') = false) before ->
  test c = Err e ->
  test_contrasts test (CDict (before ++ (name, c) :: after)) = Err e.
Proof.
  intros Hb Hc. unfold test_contrasts. rewrite map_app. cbn [map].
  assert (H : forall acc,
    mapM (fun '(nm, c0) => t ← test c0; Ok (assign "contrast" (name_cell nm) t))
      (map (fun '(n, c0) => (Some n, c0)) before ++ (Some name, c) :: acc) = Err e).
  { intros acc. induction before as [|[n c'] before IH]; simpl.
    - rewrite Hc. reflexivity.
    - inversion Hb as [|x xs Hx Hxs]; subst.
      destruct (test c') as [t|e']; [|discriminate Hx]. simpl.
      rewrite IH by exact Hxs. reflexivity. }
  rewrite H. reflexivity.
Qed.

Lemma test_contrasts_first_error_witness :
  test_contrasts (fun n : nat => if Nat.eqb n 0 then raise KeyError "x" else pvalue_table n)
    (CDict ([("a", 1%nat)] ++ ("b", 0%nat) :: [("c", 0%nat)])) = Err (PyExn KeyError "x").
Proof.
  apply test_contrasts_first_error.
  - repeat constructor.
  - reflexivity.
Defined.

(* ------------------------------------------------------------------ *)
(** ** What the constructor guarantees *)

Lemma has_nan_or_inf_false rows :
  existsb (existsb (fun c => match c with CNaN => true | _ => false end)) rows
  || existsb (existsb (fun c => match c with CPosInf | CNegInf => true | _ => false end)) rows
    = false ->
  existsb (existsb (fun c => match c with CNaN | CPosInf | CNegInf => true | _ => false end)) rows
    = false.
Proof.
  intros H. apply not_true_is_false. intros Hb.
  apply existsb_nan_or_inf in Hb. congruence.
Qed.

(** When [BaseMethod.__init__] returns, the instance's [adata] is the input,
    or its subset to the features of the boolean [adata.var[mask]] column; the
    [X] of that subset has no NaN or Inf and a numeric dtype, and passes the
    backend's [_check_counts]. The checks run after the mask is applied. *)
Theorem BaseMethod_init_guarantees model_matrix _check_counts (adata : AnnData)
    (design : design_arg) (mask layer : option string) (m : Method) :
  BaseMethod_init model_matrix _check_counts adata design mask layer = Ok m ->
  has_nan_or_inf (X (m_adata m)) = false /\
  m_dtype (X (m_adata m)) <> DObject /\
  _check_counts (m_adata m) = true /\
  m_layer m = layer /\
  match mask with
  | None => m_adata m = adata
  | Some k => exists sel, assoc k (var adata) = Some sel /\ m_adata m = subset_vars sel adata
  end.
Proof.
  unfold BaseMethod_init.
  destruct (match mask with None => Ok adata | Some k => _ end) as [a'|e] eqn:Hmask;
    cbn [mbind result_bind]; [|discriminate].
  unfold isnan_any, isinf_any.
  destruct (m_dtype (X a')) eqn:Hd; cbn [mbind result_bind]; [| |discriminate].
  all: destruct (_ || _) eqn:Hbad; [discriminate|].
  all: cbn [issubdtype_number negb].
  all: destruct (_check_counts a') eqn:Hc; cbn [negb]; [|discriminate].
  all: destruct (match design with DesignFormula f => _ | DesignGiven d => _ end);
         cbn [mbind result_bind]; [|discriminate].
  all: intros [= <-]; cbn [m_adata m_layer].
  all: split; [apply has_nan_or_inf_false; exact Hbad|].
  all: split; [rewrite Hd; discriminate|].
  all: split; [exact Hc|]; split; [reflexivity|].
  all: destruct mask as [k|]; [|congruence].
  all: unfold lookup_or_key_error in Hmask.
  all: destruct (assoc k (var adata)) as [sel|]; cbn [mbind result_bind] in Hmask; [|discriminate].
  all: injection Hmask as <-; eauto.
Qed.

Lemma BaseMethod_init_guarantees_witness :
  exists m, BaseMethod_init no_formula_engine check_counts_true adata_nan_in_g0
              (DesignGiven design_condition) (Some "keep") None = Ok m /\
  (has_nan_or_inf (X (m_adata m)) = false /\
   m_dtype (X (m_adata m)) <> DObject /\
   check_counts_true (m_adata m) = true /\
   m_layer m = None /\
   exists sel, assoc "keep" (var adata_nan_in_g0) = Some sel /\
               m_adata m = subset_vars sel adata_nan_in_g0).
Proof.
  eexists. split; [vm_compute; reflexivity|].
  refine (BaseMethod_init_guarantees no_formula_engine check_counts_true adata_nan_in_g0
            (DesignGiven design_condition) (Some "keep") None _ _).
  vm_compute. reflexivity.
Defined.

Lemma BaseMethod_init_design model_matrix _check_counts adata d mask layer m :
  BaseMethod_init model_matrix _check_counts adata (DesignGiven d) mask layer = Ok m ->
  m_design m = d.
Proof.
  unfold BaseMethod_init.
  destruct (match mask with None => Ok adata | Some k => _ end) as [a'|e];
    cbn [mbind result_bind]; [|discriminate].
  destruct (isnan_any (X a')) as [nan|e]; cbn [mbind result_bind]; [|discriminate].
  destruct (_ || _); [discriminate|]. destruct (negb _); [discriminate|].
  destruct (negb _); [discriminate|]. cbn [mbind result_bind].
  intros [= <-]. reflexivity.
Qed.

(* ------------------------------------------------------------------ *)
(** ** Several contrasts on a fitted [StatsmodelsDE] *)

Lemma StatsmodelsDE_fit_method {Model} (regression_model : list cell -> Design -> Model)
    (st st' : SMState Model) :
  StatsmodelsDE_fit regression_model st = Ok st' -> sm_method st' = sm_method st.
Proof.
  unfold StatsmodelsDE_fit. destruct (mapM _ _); cbn [mbind result_bind]; [|discriminate].
  intros [= <-]. reflexivity.
Qed.

Lemma tagged_rows_length (names : list string) (tables : list Table) (n : nat) :
  length names = length tables ->
  Forall (fun tb => n_rows tb = n) tables ->
  length (flat_map (fun '(nm, tb) => map (tag_row (CText nm)) (trows tb)) (combine names tables))
  = length names * n.
Proof.
  revert tables. induction names as [|nm names IH]; intros [|tb tables] Hl Hf;
    try discriminate Hl; [reflexivity|].
  inversion Hf as [|x xs Hx Hxs]. cbn [combine flat_map length].
  rewrite length_app, length_map, IH by (simpl in Hl; lia || exact Hxs).
  unfold n_rows in Hx. lia.
Qed.

(** After [fit] on F >= 1 features, [test_contrasts] with k >= 1 named
    contrasts that statsmodels accepts (its [t_test] succeeds on each
    fitted model) returns k * F rows: one per feature and contrast. *)
Theorem statsmodels_test_contrasts_rows {Model Contrast}
    (regression_model : list cell -> Design -> Model)
    (t_test : Model -> Contrast -> result TTest)
    (st st' : SMState Model) (items : list (string * Contrast)) :
  StatsmodelsDE_fit regression_model st = Ok st' ->
  var_names (m_adata (sm_method st)) <> [] ->
  items <> [] ->
  Forall (fun '(_, c) => forall md, is_err (t_test md c) = false) items ->
  exists t, test_contrasts (StatsmodelsDE_test_single_contrast t_test st') (CDict items) = Ok t /\
            n_rows t = length items * length (var_names (m_adata (sm_method st))).
Proof.
  intros Hfit Hne Hitems Hacc.
  set (F := length (var_names (m_adata (sm_method st)))).
  set (test := StatsmodelsDE_test_single_contrast t_test st').
  assert (Htables : forall l : list (string * Contrast),
            Forall (fun '(_, c) => forall md, is_err (t_test md c) = false) l ->
            exists tables,
            mapM test (map snd l) = Ok tables /\ length tables = length l /\
            Forall (fun tb => n_rows tb = F) tables).
  { induction l as [|[n c] l IH]; intros Hl; [exists []; repeat split; constructor|].
    apply List.Forall_cons_iff in Hl as [Hc Hl].
    destruct (IH Hl) as [tables [Hm [Hlen Hf]]].
    destruct (StatsmodelsDE_rows_per_feature regression_model t_test st st' c Hfit Hne Hc)
      as [tb [Htb Hrows]].
    exists (tb :: tables). cbn [map mapM snd].
    change (test c) with (StatsmodelsDE_test_single_contrast t_test st' c).
    rewrite Htb. cbn [mbind result_bind].
    rewrite Hm. repeat split; [simpl; congruence | constructor; assumption]. }
  destruct (Htables items Hacc) as [tables [Hm [Hl Hf]]].
  unfold test_contrasts. rewrite (mapM_tagged test items tables Hm). cbn [mbind result_bind].
  destruct items as [|[n c] items']; [congruence|].
  destruct tables as [|tb tables]; [discriminate Hl|].
  eexists. split; [reflexivity|]. unfold n_rows. cbn [trows].
  rewrite flat_map_tagged, (tagged_rows_length _ _ F).
  - rewrite length_map. reflexivity.
  - rewrite length_map. symmetry. exact Hl.
  - exact Hf.
Qed.

Lemma statsmodels_test_contrasts_rows_witness :
  exists t, test_contrasts (StatsmodelsDE_test_single_contrast pvalue_model_test
                              (MkSMState method_example (Some [1#2; 1#2]%Q)))
              (CDict [("A_vs_B", tt); ("B_vs_A", tt)]) = Ok t /\
            n_rows t = (2 * 2)%nat.
Proof.
  refine (statsmodels_test_contrasts_rows (fun _ _ => 1#2)%Q pvalue_model_test
            (fresh_SM method_example) _ _ _ _ _ _).
  - vm_compute. reflexivity.
  - discriminate.
  - discriminate.
  - constructor; [intros md; reflexivity|]. constructor; [intros md; reflexivity|]. constructor.
Defined.

(** A contrast statsmodels rejects (its [t_test] raises [e] on every fitted
    model, as a vector whose length is not the number of design columns):
    after [fit] on F >= 1 features, [_test_single_contrast] raises [e] and
    returns no table. *)
Theorem statsmodels_rejected_contrast_raises {Model Contrast}
    (regression_model : list cell -> Design -> Model)
    (t_test : Model -> Contrast -> result TTest)
    (st st' : SMState Model) (c : Contrast) (e : py_exn) :
  StatsmodelsDE_fit regression_model st = Ok st' ->
  var_names (m_adata (sm_method st)) <> [] ->
  (forall md, t_test md c = Err e) ->
  StatsmodelsDE_test_single_contrast t_test st' c = Err e.
Proof.
  unfold StatsmodelsDE_fit.
  destruct (mapM _ _) as [ys|e'] eqn:Hys; cbn [mbind result_bind]; [|discriminate].
  intros [= <-] Hne Hrej. apply mapM_length_result in Hys.
  unfold StatsmodelsDE_test_single_contrast, models_or_error.
  cbn [sm_models sm_method mbind result_bind].
  destruct (var_names (m_adata (sm_method st))) as [|v vs]; [congruence|].
  destruct ys as [|y ys]; [discriminate Hys|].
  cbn [map combine mapM]. unfold StatsmodelsDE_record. cbn beta iota. rewrite Hrej. reflexivity.
Qed.

Lemma statsmodels_rejected_contrast_raises_witness :
  StatsmodelsDE_test_single_contrast
    (fun (_ : unit) (c : list Q) =>
       if Nat.eqb (length c) 2 then pvalue_model_test (1#2) tt
       else raise ValueError "shapes not aligned")
    (MkSMState method_example (Some [tt; tt])) [0; 1; 0]%Q
  = raise ValueError "shapes not aligned".
Proof.
  apply (statsmodels_rejected_contrast_raises (fun _ _ => tt) _ (fresh_SM method_example));
    [vm_compute; reflexivity | discriminate | intros md; reflexivity].
Defined.

(** Before [fit], [self.models] does not exist: testing any contrast
    raises AttributeError. *)
Theorem statsmodels_test_before_fit_raises {Model Contrast}
    (t_test : Model -> Contrast -> result TTest)
    (m : Method) (name : string) (c : Contrast) (items : list (string * Contrast)) :
  test_contrasts (StatsmodelsDE_test_single_contrast t_test (fresh_SM m)) (CDict ((name, c) :: items))
  = Err (PyExn AttributeError "object has no attribute 'models'").
Proof. reflexivity. Qed.

(* ------------------------------------------------------------------ *)
(** ** [run_de] *)

(** A [method] other than the three registry keys (["DESeq"], ["edgeR"],
    ["statsmodels"]) raises KeyError before anything else runs; in
    particular [WilcoxonTest] cannot be reached through [run_de]. *)
Theorem run_de_unknown_method model_matrix deseq edger statsmodels adata contrasts method
    design mask layer :
  method <> "DESeq" -> method <> "edgeR" -> method <> "statsmodels" ->
  run_de model_matrix deseq edger statsmodels adata contrasts method design mask layer
  = Err (PyExn KeyError method).
Proof.
  intros H1 H2 H3. unfold run_de, lookup_or_key_error, MethodRegistry. cbn [assoc].
  rewrite (proj2 (String.eqb_neq _ _) H1), (proj2 (String.eqb_neq _ _) H2),
          (proj2 (String.eqb_neq _ _) H3).
  reflexivity.
Qed.

Lemma run_de_unknown_method_witness :
  run_de no_formula_engine trivial_backend trivial_backend trivial_backend adata_example
    (ContrastsDict [("AvB", ContrastDict "condition" "A" "B")]) "wilcoxon"
    (DesignGiven design_condition) None None
  = Err (PyExn KeyError "wilcoxon").
Proof. apply run_de_unknown_method; discriminate. Defined.

(** [contrasts.items()] needs a dict: given a list of strings, as in
    [run_de(..., contrasts=["condition", "A", "B"])], [run_de] always
    raises, whatever the method, data and design. *)
Theorem run_de_list_contrasts_raises model_matrix deseq edger statsmodels adata (l : list string)
    method design mask layer :
  is_err (run_de model_matrix deseq edger statsmodels adata (ContrastsList l) method design
            mask layer) = true.
Proof.
  unfold run_de.
  destruct (lookup_or_key_error method _) as [b|e]; cbn [mbind result_bind]; [|reflexivity].
  destruct (BaseMethod_init _ _ _ _ _ _) as [md|e]; cbn [mbind result_bind]; [|reflexivity].
  destruct (b_fit b _); reflexivity.
Qed.

Lemma contrast_call_raw (m : list (list Q)) (c : contrast_spec) :
  is_err (contrast_call (RawMatrix m) c) = true.
Proof.
  destruct c as [col b g|[|col [|b [|g [|x l]]]]]; reflexivity.
Qed.

Lemma mapM_contrasts_raw {B} (m : list (list Q)) (name : string) (c : contrast_spec)
    (rest : list (string * contrast_spec)) (k : list (string * list Q) -> result B) :
  is_err (cs ← mapM (fun '(nm, c0) => v ← contrast_call (RawMatrix m) c0; Ok (nm, v))
                 ((name, c) :: rest); k cs) = true.
Proof.
  cbn [mapM]. pose proof (contrast_call_raw m c) as H.
  destruct (contrast_call (RawMatrix m) c); [discriminate H|reflexivity].
Qed.

(** Every contrast goes through [model.contrast], hence [cond]: with the
    statsmodels or edgeR backend and a design given as a plain matrix,
    [run_de] with at least one contrast always raises. *)
Theorem run_de_raw_design_raises {Model RObject} model_matrix deseq
    (regression_model : list cell -> Design -> Model)
    (t_test : Model -> list Q -> result TTest)
    (r_available : bool) (glmQLFit : Matrix -> AnnData -> Design -> RObject)
    (edger_test : list Q -> result Table) adata (m : list (list Q)) name c rest method mask layer :
  method = "statsmodels" \/ method = "edgeR" ->
  is_err (run_de model_matrix deseq (EdgeRDE_backend r_available glmQLFit edger_test)
            (StatsmodelsDE_backend regression_model t_test) adata
            (ContrastsDict ((name, c) :: rest)) method (DesignGiven (RawMatrix m)) mask layer)
  = true.
Proof.
  intros [-> | ->]; unfold run_de;
    [change (lookup_or_key_error "statsmodels" (MethodRegistry _ _ ?s)) with (@Ok Backend s)
    |change (lookup_or_key_error "edgeR" (MethodRegistry _ ?e _)) with (@Ok Backend e)];
    cbn [mbind result_bind b_check_counts b_fresh b_fit b_method
         StatsmodelsDE_backend EdgeRDE_backend].
  - destruct (BaseMethod_init model_matrix check_counts_true adata (DesignGiven (RawMatrix m))
              mask layer) as [md|e] eqn:Hi; cbn [mbind result_bind]; [|reflexivity].
    apply BaseMethod_init_design in Hi.
    destruct (StatsmodelsDE_fit regression_model (fresh_SM md)) as [st|e] eqn:Hf;
      cbn [mbind result_bind]; [|reflexivity].
    apply StatsmodelsDE_fit_method in Hf. cbn [fresh_SM sm_method] in Hf.
    rewrite Hf, Hi. apply mapM_contrasts_raw.
  - destruct (BaseMethod_init model_matrix check_counts_true adata (DesignGiven (RawMatrix m))
              mask layer) as [md|e] eqn:Hi; cbn [mbind result_bind]; [|reflexivity].
    apply BaseMethod_init_design in Hi.
    unfold EdgeRDE_call_fit, EdgeRDE_fit_body. cbn [fresh_EdgeR er_fit_attr er_method].
    destruct (negb r_available); [reflexivity|].
    destruct (layer_matrix _ _) as [expr|e]; cbn [mbind result_bind]; [|reflexivity].
    cbn [er_method]. rewrite Hi. apply mapM_contrasts_raw.
Qed.

Lemma run_de_raw_design_raises_witness :
  is_err (run_de no_formula_engine trivial_backend
            (EdgeRDE_backend true (fun _ _ _ => tt) (fun _ => pvalue_table 0))
            (StatsmodelsDE_backend (fun _ _ => tt) (fun _ _ => Ok (MkTTest (CQ 0) (CQ 0) (CQ 1) (CQ 0)))) adata_example
            (ContrastsDict [("AvB", ContrastList ["condition"; "A"; "B"])]) "statsmodels"
            (DesignGiven (RawMatrix [[1; 0]; [1; 0]; [1; 1]; [1; 1]]%Q)) None None) = true.
Proof. apply run_de_raw_design_raises. left. reflexivity. Defined.

(* ------------------------------------------------------------------ *)
(** ** The column-name regex of [cond] *)

Lemma dot_run_full (x : list ascii) :
  forallb (fun c => negb (Ascii.eqb c newline)) x = true -> dot_run x = length x.
Proof.
  induction x as [|c x IH]; [reflexivity|]. cbn [forallb]. intros H.
  apply andb_true_iff in H as [Hc H]. cbn [dot_run length].
  destruct (Ascii.eqb c newline); [discriminate Hc|]. rewrite IH by exact H. reflexivity.
Qed.

Lemma starts_with_snoc_close (p x : list ascii) :
  existsb (Ascii.eqb "]"%char) p = false ->
  starts_with p (app x ["]"%char]) = starts_with p x.
Proof.
  revert x. induction p as [|c p IH]; intros x Hp; [destruct x; reflexivity|].
  cbn [existsb] in Hp. apply orb_false_iff in Hp as [Hc Hp].
  destruct x as [|d x]; cbn [app starts_with].
  - rewrite Ascii.eqb_sym, Hc. reflexivity.
  - rewrite IH by exact Hp. reflexivity.
Qed.

Lemma first_some_greedy_skip {B} (f : nat -> option B) (m n : nat) :
  m <= n -> (forall k, m < k -> k <= n -> f k = None) ->
  first_some f (greedy_lengths n) = first_some f (greedy_lengths m).
Proof.
  induction n as [|n IH]; intros Hle Hskip.
  - assert (m = 0) as -> by lia. reflexivity.
  - destruct (Nat.eq_dec m (S n)) as [->|Hne]; [reflexivity|].
    cbn [greedy_lengths first_some]. rewrite Hskip by lia.
    apply IH; [lia|]. intros k Hk1 Hk2. apply Hskip; lia.
Qed.

Lemma first_some_none {A B} (f : A -> option B) (l : list A) :
  (forall x, In x l -> f x = None) -> first_some f l = None.
Proof.
  induction l as [|x l IH]; intros H; [reflexivity|]. cbn [first_some].
  rewrite H by (left; reflexivity). apply IH. intros y Hy. apply H. right. exact Hy.
Qed.

Lemma in_greedy_lengths k n : In k (greedy_lengths n) -> 1 <= k <= n.
Proof.
  induction n as [|n IH]; cbn [greedy_lengths In]; [tauto|].
  intros [<-|H]; [lia|]. apply IH in H. lia.
Qed.

Lemma no_T_marker_drop (L : list ascii) (i : nat) :
  existsb (fun i => starts_with ["["; "T"; "."]%char (drop i L)) (seq 0 (length L)) = false ->
  starts_with ["["; "T"; "."]%char (drop i L) = false.
Proof.
  intros H. destruct (Nat.lt_ge_cases i (length L)) as [Hi|Hi].
  - apply not_true_is_false. intros Hs.
    assert (Hex : existsb (fun i => starts_with ["["; "T"; "."]%char (drop i L))
                    (seq 0 (length L)) = true).
    { apply existsb_exists. exists i. split; [apply in_seq; lia | exact Hs]. }
    congruence.
  - rewrite drop_ge by exact Hi. reflexivity.
Qed.

Lemma list_ascii_dummy (v l : string) :
  list_ascii_of_string (dummy_name v l)
  = app (list_ascii_of_string v)
        ("["%char :: "T"%char :: "."%char :: app (list_ascii_of_string l) ["]"%char]).
Proof.
  unfold dummy_name. rewrite !list_ascii_of_string_append. reflexivity.
Qed.

Lemma starts_with_self (p r : list ascii) : starts_with p (app p r) = true.
Proof.
  induction p as [|c p IH]; [reflexivity|]. cbn [app starts_with].
  rewrite Ascii.eqb_refl, IH. reflexivity.
Qed.

Lemma first_some_hit {A B} (f : A -> option B) (x : A) (l : list A) (y : B) :
  f x = Some y -> first_some f (x :: l) = Some y.
Proof. intros H. cbn [first_some]. rewrite H. reflexivity. Qed.

Lemma first_some_miss {A B} (f : A -> option B) (x : A) (l : list A) :
  f x = None -> first_some f (x :: l) = first_some f l.
Proof. intros H. cbn [first_some]. rewrite H. reflexivity. Qed.

(** Round trip of the column naming: for a column ["var[T.level]"] with a
    non-empty variable name and level, no newline, and no ["[T."] inside
    the level, [_get_var_from_colname] gives back the level. *)
Theorem get_var_from_colname_dummy (v l : string) :
  v <> "" -> l <> "" -> no_newline v = true -> no_newline l = true ->
  has_T_marker l = false ->
  _get_var_from_colname (dummy_name v l) = Ok l.
Proof.
  intros Hv Hl Hnv Hnl Ht. unfold _get_var_from_colname, colname_regex.
  rewrite list_ascii_dummy.
  set (V := list_ascii_of_string v) in *. set (L := list_ascii_of_string l) in *.
  assert (HV : V <> []) by (unfold V; destruct v; [congruence | discriminate]).
  assert (HL : L <> []) by (unfold L; destruct l; [congruence | discriminate]).
  set (s := app V ("["%char :: "T"%char :: "."%char :: app L ["]"%char])).
  assert (Hlen : length s = length V + 3 + length L + 1)
    by (unfold s; rewrite length_app; cbn [length]; rewrite length_app; cbn [length]; lia).
  assert (Hrun : dot_run s = length s).
  { apply dot_run_full. unfold s. rewrite forallb_app. cbn [forallb].
    rewrite forallb_app. unfold no_newline in Hnv, Hnl. fold V in Hnv. fold L in Hnl.
    rewrite Hnv, Hnl. reflexivity. }
  rewrite Hrun.
  destruct (length V) as [|n] eqn:HnV; [destruct V; [congruence | discriminate HnV]|].
  assert (Hskip : forall k, S n < k -> k <= length s ->
            starts_with ["["; "T"; "."]%char (drop k s) = false).
  { intros k Hk1 Hk2.
    replace (drop k s) with (drop (k - S n) ("["%char :: "T"%char :: "."%char
                                             :: app L ["]"%char]))
      by (unfold s; rewrite drop_app_ge by lia; rewrite HnV; reflexivity).
    destruct (k - S n) as [|[|[|j]]] eqn:Hj; [lia | reflexivity | reflexivity|].
    cbn [drop skipn].
    destruct (Nat.le_gt_cases j (length L)) as [HjL|HjL].
    - rewrite drop_app_le by exact HjL. rewrite starts_with_snoc_close by reflexivity.
      apply no_T_marker_drop. exact Ht.
    - rewrite drop_ge by (rewrite length_app; cbn [length]; lia). reflexivity. }
  rewrite (first_some_greedy_skip _ (S n) (length s)); [| lia |].
  2:{ intros k Hk1 Hk2. rewrite Hskip by assumption. reflexivity. }
  assert (Hhead : starts_with ["["; "T"; "."]%char (drop (S n) s) = true).
  { replace (drop (S n) s) with ("["%char :: "T"%char :: "."%char :: app L ["]"%char])
      by (unfold s; rewrite drop_app_ge by lia; rewrite HnV, Nat.sub_diag; reflexivity).
    exact (starts_with_self ["["; "T"; "."]%char (app L ["]"%char])). }
  assert (Hrest : drop (S n + 3) s = app L ["]"%char]).
  { unfold s. rewrite drop_app_ge by lia. rewrite HnV.
    replace (S n + 3 - S n) with 3 by lia. reflexivity. }
  assert (HrunL : dot_run (app L ["]"%char]) = S (length L)).
  { rewrite dot_run_full.
    - rewrite length_app. cbn [length]. lia.
    - rewrite forallb_app. unfold no_newline in Hnl. fold L in Hnl. rewrite Hnl. reflexivity. }
  cbn [greedy_lengths]. rewrite (first_some_hit _ _ _ L).
  { unfold L. rewrite string_of_list_ascii_of_string. reflexivity. }
  cbv beta. rewrite Hhead. cbv iota. rewrite Hrest, HrunL. cbn [greedy_lengths].
  rewrite first_some_miss.
  2:{ rewrite nth_overflow by (rewrite length_app; cbn [length]; lia). reflexivity. }
  destruct (length L) as [|m] eqn:HnL; [destruct L; [congruence | discriminate HnL]|].
  cbn [greedy_lengths]. apply first_some_hit.
  rewrite app_nth2 by lia. rewrite HnL, Nat.sub_diag.
  unfold dollar_at. rewrite Hlen, ?HnV, ?HnL, Nat.eqb_refl. cbn [orb nth].
  rewrite <- HnL, take_app_length. reflexivity.
Qed.

Lemma get_var_from_colname_dummy_witness :
  _get_var_from_colname (dummy_name "condition" "B") = Ok "B".
Proof.
  apply get_var_from_colname_dummy; try discriminate; vm_compute; reflexivity.
Defined.

Lemma colname_regex_no_marker (s : string) :
  has_T_marker s = false -> colname_regex (list_ascii_of_string s) = None.
Proof.
  intros Ht. unfold colname_regex. apply first_some_none. intros k _.
  unfold has_T_marker in Ht. rewrite (no_T_marker_drop _ k Ht). reflexivity.
Qed.

Lemma get_var_from_colname_err (s : string) (e : py_exn) :
  _get_var_from_colname s = Err e ->
  e = PyExn AttributeError "'NoneType' object has no attribute 'groups'".
Proof.
  unfold _get_var_from_colname. destruct (colname_regex _); [discriminate|].
  intros [= <-]. reflexivity.
Qed.

Lemma mapM_get_var_no_marker (l : list string) (c : string) :
  In c l -> has_T_marker c = false ->
  mapM _get_var_from_colname l
  = raise AttributeError "'NoneType' object has no attribute 'groups'".
Proof.
  intros Hin Ht. induction l as [|x l IH]; [destruct Hin|]. cbn [mapM].
  destruct (_get_var_from_colname x) as [g|e] eqn:Hx.
  - destruct Hin as [->|Hin].
    + unfold _get_var_from_colname in Hx. rewrite colname_regex_no_marker in Hx by exact Ht.
      discriminate Hx.
    + cbn [mbind result_bind]. rewrite IH by exact Hin. reflexivity.
  - apply get_var_from_colname_err in Hx. subst e. reflexivity.
Qed.

(** A column of the variable that does not have the ["var[T.level]"] form
    fails the regex. So when a categorical variable, the first of the
    design, is omitted and one of its columns has no ["[T."] (as in the
    full indicator columns ["condition[A]"] of ["~ 0 + condition"]), [cond]
    raises AttributeError. *)
Theorem cond_omitted_without_marker_raises (spec : ModelSpec) (var : string)
    (rest cats : list string) (kw : gmap string value) (c : string) :
  variables spec = var :: rest ->
  encoder_lookup spec var = Ok (EncoderEntry Categorical cats) ->
  kw !! var = None ->
  In c (columns spec) -> startswith c (var ++ "[") = true -> has_T_marker c = false ->
  cond (ModelMatrix spec) kw
  = raise AttributeError "'NoneType' object has no attribute 'groups'".
Proof.
  intros Hvars Henc Hkw Hc Hpre Ht. unfold cond. rewrite Hvars. cbn [fill_defaults].
  unfold fill_var. rewrite Henc. cbn [mbind result_bind ee_kind ee_categories kind_value].
  rewrite Hkw. cbn [String.eqb negb].
  unfold dropped_level.
  rewrite (mapM_get_var_no_marker _ c); [reflexivity| |exact Ht].
  apply filter_In. split; assumption.
Qed.

Lemma cond_omitted_without_marker_raises_witness :
  cond (ModelMatrix spec_no_intercept) ∅
  = raise AttributeError "'NoneType' object has no attribute 'groups'".
Proof.
  apply (cond_omitted_without_marker_raises spec_no_intercept "condition" [] ["A"; "B"] ∅
           "condition[A]");
    [reflexivity | reflexivity | reflexivity | left; reflexivity | vm_compute; reflexivity
    | vm_compute; reflexivity].
Defined.

(* ------------------------------------------------------------------ *)
(** ** [cond] on treatment-coded main-effects designs *)

Lemma main_effect_columns (vars : list CatVar) :
  NoDup (map cv_name vars) ->
  columns (treatment_spec vars ([] :: map (fun cv => [cv_name cv]) vars))
  = "Intercept" :: flat_map (fun cv => map (dummy_name (cv_name cv)) (tl (cv_levels cv))) vars.
Proof.
  intros Hnd. unfold treatment_spec. cbn [columns flat_map term_columns app map].
  change (col_name []) with "Intercept". f_equal.
  assert (H : forall sub, (forall cv, In cv sub -> In cv vars) ->
            map col_name (flat_map (term_columns vars) (map (fun cv => [cv_name cv]) sub))
            = flat_map (fun cv => map (dummy_name (cv_name cv)) (tl (cv_levels cv))) sub).
  { induction sub as [|cv sub IH]; intros Hin; [reflexivity|].
    cbn [map flat_map]. rewrite map_app, term_columns_single, IH
      by (intros; apply Hin; right; assumption).
    rewrite (cat_lookup_in vars cv Hnd (Hin cv (or_introl eq_refl))). reflexivity. }
  apply H. tauto.
Qed.

Lemma starts_with_prefix_in (p s : list ascii) (c : ascii) :
  starts_with p s = true -> In c p -> In c s.
Proof.
  revert s. induction p as [|d p IH]; intros s Hs Hc; [destruct Hc|].
  destruct s as [|e s]; [discriminate Hs|]. cbn [starts_with] in Hs.
  apply andb_true_iff in Hs as [Hde Hs]. apply Ascii.eqb_eq in Hde as ->.
  destruct Hc as [->|Hc]; [left; reflexivity | right; apply IH; assumption].
Qed.

Lemma starts_with_same_stem (a b r : list ascii) :
  existsb (Ascii.eqb "["%char) a = false -> existsb (Ascii.eqb "["%char) b = false ->
  starts_with (app a ["["%char]) (app b ("["%char :: r)) = true -> a = b.
Proof.
  revert b. induction a as [|c a IH]; intros b Ha Hb Hs.
  - destruct b as [|d b]; [reflexivity|]. cbn [app starts_with] in Hs.
    cbn [existsb] in Hb. apply orb_false_iff in Hb as [Hd _].
    rewrite andb_true_r in Hs. congruence.
  - cbn [existsb] in Ha. apply orb_false_iff in Ha as [Hc Ha].
    destruct b as [|d b]; cbn [app starts_with] in Hs.
    + apply andb_true_iff in Hs as [Hs _]. apply Ascii.eqb_eq in Hs. subst c.
      rewrite Ascii.eqb_refl in Hc. discriminate Hc.
    + apply andb_true_iff in Hs as [Hcd Hs]. apply Ascii.eqb_eq in Hcd. subst d.
      cbn [existsb] in Hb. apply orb_false_iff in Hb as [_ Hb].
      f_equal. apply IH; assumption.
Qed.

Lemma startswith_dummy_other (w v l : string) :
  has_bracket w = false -> has_bracket v = false -> w <> v ->
  startswith (dummy_name w l) (v ++ "[") = false.
Proof.
  intros Hw Hv Hne. apply not_true_is_false. intros Hs.
  unfold startswith in Hs. rewrite list_ascii_dummy, list_ascii_of_string_append in Hs.
  apply starts_with_same_stem in Hs; [|exact Hv|exact Hw].
  apply Hne. rewrite <- (string_of_list_ascii_of_string w), <- (string_of_list_ascii_of_string v).
  f_equal. symmetry. exact Hs.
Qed.

Lemma starts_with_app_same (p q r : list ascii) :
  starts_with (app p q) (app p r) = starts_with q r.
Proof.
  induction p as [|c p IH]; [reflexivity|]. cbn [app starts_with].
  rewrite Ascii.eqb_refl, IH. reflexivity.
Qed.

Lemma startswith_dummy_self (v l : string) : startswith (dummy_name v l) (v ++ "[") = true.
Proof.
  unfold startswith. rewrite list_ascii_dummy, list_ascii_of_string_append.
  rewrite starts_with_app_same. reflexivity.
Qed.

Lemma startswith_intercept (v : string) : startswith "Intercept" (v ++ "[") = false.
Proof.
  apply not_true_is_false. intros Hs. unfold startswith in Hs.
  rewrite list_ascii_of_string_append in Hs.
  apply (starts_with_prefix_in _ _ "["%char) in Hs.
  - cbn in Hs. repeat destruct Hs as [Hs|Hs]; discriminate Hs || exact Hs.
  - apply in_or_app. right. left. reflexivity.
Qed.

Lemma filter_other_dummies (v : string) (ws : list CatVar) :
  has_bracket v = false ->
  (forall w, In w ws -> has_bracket (cv_name w) = false /\ cv_name w <> v) ->
  List.filter (fun c => startswith c (v ++ "["))
    (flat_map (fun cv => map (dummy_name (cv_name cv)) (tl (cv_levels cv))) ws) = [].
Proof.
  intros Hv Hws. induction ws as [|w ws IH]; [reflexivity|].
  cbn [flat_map]. rewrite List.filter_app, IH by (intros; apply Hws; right; assumption).
  destruct (Hws w (or_introl eq_refl)) as [Hw Hne].
  induction (tl (cv_levels w)) as [|l ls IHl]; [reflexivity|].
  cbn [map List.filter app]. rewrite startswith_dummy_other by assumption. exact IHl.
Qed.

Lemma filter_self_dummies (v : string) (ls : list string) :
  List.filter (fun c => startswith c (v ++ "[")) (map (dummy_name v) ls) = map (dummy_name v) ls.
Proof.
  induction ls as [|l ls IH]; [reflexivity|].
  cbn [map List.filter]. rewrite startswith_dummy_self, IH. reflexivity.
Qed.

Lemma var_columns_main_effects (vars : list CatVar) (cv : CatVar) :
  NoDup (map cv_name vars) -> In cv vars ->
  Forall (fun w => has_bracket (cv_name w) = false) vars ->
  List.filter (fun c => startswith c (cv_name cv ++ "["))
    (flat_map (fun w => map (dummy_name (cv_name w)) (tl (cv_levels w))) vars)
  = map (dummy_name (cv_name cv)) (tl (cv_levels cv)).
Proof.
  intros Hnd Hin Hb. induction vars as [|w ws IH]; [destruct Hin|].
  cbn [map] in Hnd. apply NoDup_cons in Hnd as [Hnotin Hnd].
  rewrite list_elem_of_In in Hnotin.
  apply List.Forall_forall with (x := cv) in Hb as Hcv; [|exact Hin].
  cbn [flat_map]. rewrite List.filter_app.
  destruct Hin as [<-|Hin].
  - rewrite filter_self_dummies, filter_other_dummies; [apply app_nil_r | exact Hcv|].
    intros w' Hw'. split.
    + apply List.Forall_forall with (x := w') in Hb; [exact Hb | right; exact Hw'].
    + intros Heq. apply Hnotin. rewrite <- Heq. apply in_map. exact Hw'.
  - assert (Hne : cv_name w <> cv_name cv).
    { intros Heq. apply Hnotin. rewrite Heq. apply in_map. exact Hin. }
    assert (Hw : has_bracket (cv_name w) = false).
    { apply List.Forall_forall with (x := w) in Hb; [exact Hb | left; reflexivity]. }
    rewrite IH; [| exact Hnd | exact Hin | inversion Hb; assumption].
    replace (List.filter _ (map (dummy_name (cv_name w)) (tl (cv_levels w)))) with (@nil string);
      [reflexivity|].
    symmetry. induction (tl (cv_levels w)) as [|l ls IHl]; [reflexivity|].
    cbn [map List.filter]. rewrite startswith_dummy_other by assumption. exact IHl.
Qed.

Lemma mapM_get_var_dummies (v : string) (ls : list string) :
  v <> "" -> no_newline v = true ->
  Forall (fun l => l <> "" /\ no_newline l = true /\ has_T_marker l = false) ls ->
  mapM _get_var_from_colname (map (dummy_name v) ls) = Ok ls.
Proof.
  intros Hv Hnv Hls. induction Hls as [|l ls [Hl [Hnl Ht]] Hls IH]; [reflexivity|].
  cbn [map mapM]. rewrite get_var_from_colname_dummy by assumption.
  cbn [mbind result_bind]. rewrite IH. reflexivity.
Qed.

Lemma dedup_nodup (l : list string) : NoDup l -> dedup l = l.
Proof.
  induction 1 as [|x l Hx Hnd IH]; [reflexivity|]. cbn [dedup].
  rewrite list_elem_of_In in Hx.
  destruct (existsb (String.eqb x) l) eqn:He.
  - apply existsb_exists in He as [y [Hy Hxy]]. apply String.eqb_eq in Hxy. subst y.
    contradiction.
  - rewrite IH. reflexivity.
Qed.

Lemma filter_not_mem_self (l others : list string) :
  (forall x, In x l -> In x others) ->
  List.filter (fun c => negb (mem c others)) l = [].
Proof.
  induction l as [|x l IH]; intros H; [reflexivity|]. cbn [List.filter].
  assert (Hx : mem x others = true).
  { apply existsb_exists. exists x. split; [apply H; left; reflexivity | apply String.eqb_refl]. }
  rewrite Hx. apply IH. intros y Hy. apply H. right. exact Hy.
Qed.

Lemma assoc_main_effects (vars : list CatVar) (cv : CatVar) :
  NoDup (map cv_name vars) -> In cv vars ->
  assoc (cv_name cv) (map (fun cv => (cv_name cv, EncoderEntry Categorical (cv_levels cv))) vars)
  = Some (EncoderEntry Categorical (cv_levels cv)).
Proof.
  intros Hnd Hin. induction vars as [|w ws IH]; [destruct Hin|].
  cbn [map] in Hnd. apply NoDup_cons in Hnd as [Hnotin Hnd].
  rewrite list_elem_of_In in Hnotin. cbn [map assoc].
  destruct Hin as [<-|Hin]; [rewrite String.eqb_refl; reflexivity|].
  destruct (String.eqb_spec (cv_name cv) (cv_name w)) as [Heq|Hne].
  - exfalso. apply Hnotin. rewrite <- Heq. apply in_map. exact Hin.
  - apply IH; assumption.
Qed.

(** On a treatment-coded main-effects design ([~ v1 + v2 + ...]) with
    distinct, non-empty variable names free of ["["] and newlines, and
    distinct, non-empty levels free of ["[T."] and newlines, [cond] with a
    variable set to its reference level returns what [cond] gives when the
    variable is omitted. *)
Theorem cond_main_effects_reference_as_omitted (vars : list CatVar) (cv : CatVar)
    (ref : string) (others : list string) (kw : gmap string value) :
  NoDup (map cv_name vars) ->
  Forall (fun w => has_bracket (cv_name w) = false /\ cv_name w <> "" /\
                   no_newline (cv_name w) = true /\ NoDup (cv_levels w) /\
                   Forall (fun l => l <> "" /\ no_newline l = true /\ has_T_marker l = false)
                          (cv_levels w)) vars ->
  In cv vars -> cv_levels cv = ref :: others -> kw !! cv_name cv = None ->
  cond (ModelMatrix (treatment_spec vars ([] :: map (fun w => [cv_name w]) vars)))
       (<[cv_name cv := VStr ref]> kw)
  = cond (ModelMatrix (treatment_spec vars ([] :: map (fun w => [cv_name w]) vars))) kw.
Proof.
  intros Hnd Hok Hin Hlev Hkw.
  assert (Hcv := proj1 (List.Forall_forall _ _) Hok cv Hin).
  destruct Hcv as [Hb [Hne [Hnl [Hndl Hls]]]].
  set (spec := treatment_spec vars ([] :: map (fun w => [cv_name w]) vars)).
  apply (cond_reference_as_omitted spec (cv_name cv) ref (cv_levels cv) kw).
  - apply in_map. exact Hin.
  - exact Hkw.
  - unfold encoder_lookup. unfold spec, treatment_spec. cbn [encoder_state].
    rewrite assoc_main_effects by assumption. reflexivity.
  - rewrite dedup_nodup by exact Hndl. unfold dropped_level.
    unfold spec. rewrite main_effect_columns by exact Hnd.
    cbn [List.filter]. rewrite startswith_intercept.
    rewrite var_columns_main_effects; [| exact Hnd | exact Hin |].
    2:{ apply List.Forall_forall. intros w Hw. apply (proj1 (List.Forall_forall _ _) Hok w Hw). }
    rewrite mapM_get_var_dummies; [| exact Hne | exact Hnl |].
    2:{ rewrite Hlev in Hls |- *. cbn [tl]. inversion Hls; assumption. }
    cbn [mbind result_bind]. rewrite Hlev. cbn [tl List.filter].
    rewrite Hlev in Hndl. apply NoDup_cons in Hndl as [Hrefnot _].
    rewrite list_elem_of_In in Hrefnot.
    replace (mem ref others) with false.
    2:{ symmetry. apply not_true_is_false. intros Hm. apply existsb_exists in Hm as [y [Hy Hry]].
        apply String.eqb_eq in Hry. subst y. contradiction. }
    cbn [negb]. rewrite filter_not_mem_self by tauto. reflexivity.
Qed.

Lemma cond_main_effects_reference_as_omitted_witness :
  cond (ModelMatrix (treatment_spec [MkCatVar "condition" ["A"; "B"];
                                     MkCatVar "donor" ["D0"; "D1"; "D2"]]
                       [[]; ["condition"]; ["donor"]]))
       (<["donor" := VStr "D0"]> {[ "condition" := VStr "B" ]})
  = cond (ModelMatrix (treatment_spec [MkCatVar "condition" ["A"; "B"];
                                       MkCatVar "donor" ["D0"; "D1"; "D2"]]
                         [[]; ["condition"]; ["donor"]]))
         {[ "condition" := VStr "B" ]}.
Proof.
  apply (cond_main_effects_reference_as_omitted
           [MkCatVar "condition" ["A"; "B"]; MkCatVar "donor" ["D0"; "D1"; "D2"]]
           (MkCatVar "donor" ["D0"; "D1"; "D2"]) "D0" ["D1"; "D2"]).
  - apply (bool_decide_unpack _). vm_compute. reflexivity.
  - repeat apply List.Forall_cons;
      (split; [vm_compute; reflexivity|]; split; [discriminate|];
       split; [vm_compute; reflexivity|];
       split; [apply (bool_decide_unpack _); vm_compute; reflexivity|];
       repeat apply List.Forall_cons;
       try (split; [discriminate|]; split; vm_compute; reflexivity);
       apply List.Forall_nil) || apply List.Forall_nil.
  - right. left. reflexivity.
  - reflexivity.
  - reflexivity.
Defined.

(* ------------------------------------------------------------------ *)
(** ** [cond] on values it rejects, and numerical variables *)

Lemma fill_defaults_bad_value spec var cats (v : value) :
  encoder_lookup spec var = Ok (EncoderEntry Categorical cats) ->
  match v with VStr s => mem s (dedup cats) = false | VNum _ => True end ->
  forall vs kw, In var vs -> kw !! var = Some v -> is_err (fill_defaults spec kw vs) = true.
Proof.
  intros Henc Hbad vs. induction vs as [|v0 vs IH]; intros kw Hin Hkw; [destruct Hin|].
  cbn [fill_defaults]. destruct (String.eqb_spec v0 var) as [->|Hne].
  - unfold fill_var. rewrite Henc. cbn [mbind result_bind ee_kind ee_categories kind_value].
    rewrite Hkw. destruct v as [s|q]; [rewrite Hbad|]; reflexivity.
  - destruct Hin as [Heq|Hin]; [congruence|].
    destruct (fill_var spec kw v0) as [kw'|e] eqn:Hf; cbn [mbind result_bind]; [|reflexivity].
    apply IH; [exact Hin|]. rewrite (fill_var_keeps_other _ _ _ _ _ Hne Hf). exact Hkw.
Qed.

(** A categorical variable set to a level that is not among its categories,
    or to a number, makes [cond] raise. *)
Theorem cond_unknown_level_raises (spec : ModelSpec) (var : string) (cats : list string)
    (kw : gmap string value) (v : value) :
  In var (variables spec) ->
  encoder_lookup spec var = Ok (EncoderEntry Categorical cats) ->
  kw !! var = Some v ->
  match v with VStr s => mem s (dedup cats) = false | VNum _ => True end ->
  is_err (cond (ModelMatrix spec) kw) = true.
Proof.
  intros Hin Henc Hkw Hbad. unfold cond.
  pose proof (fill_defaults_bad_value spec var cats v Henc Hbad _ kw Hin Hkw) as H.
  destruct (fill_defaults spec kw (variables spec)); [discriminate H | reflexivity].
Qed.

Lemma cond_unknown_level_raises_witness :
  is_err (cond design_condition {[ "condition" := VStr "C" ]}) = true.
Proof.
  apply (cond_unknown_level_raises _ "condition" ["A"; "B"] _ (VStr "C"));
    [left; reflexivity | reflexivity | reflexivity | reflexivity].
Defined.

Lemma fill_defaults_numeric spec var k cats :
  encoder_lookup spec var = Ok (EncoderEntry k cats) -> k <> Categorical ->
  forall vs kw, kw !! var = None -> In var vs ->
  fill_defaults spec (<[var := VNum 0]> kw) vs = fill_defaults spec kw vs.
Proof.
  intros Henc Hk vs. induction vs as [|v vs IH]; intros kw Hnone Hin; [destruct Hin|].
  assert (Hcat : String.eqb (kind_value k) "categorical" = false)
    by (destruct k; [reflexivity | contradiction | reflexivity]).
  cbn [fill_defaults]. destruct (String.eqb_spec v var) as [->|Hne].
  - unfold fill_var at 1 2. rewrite Henc. cbn [mbind result_bind ee_kind ee_categories].
    rewrite lookup_insert_eq, Hnone, Hcat. reflexivity.
  - destruct Hin as [Heq|Hin]; [congruence|].
    rewrite fill_var_other by exact Hne.
    destruct (fill_var spec kw v) as [kw'|e] eqn:Hf; cbn [mbind result_bind]; [|reflexivity].
    apply IH; [|exact Hin].
    rewrite (fill_var_keeps_other _ _ _ _ _ Hne Hf). exact Hnone.
Qed.

(** An omitted variable that is not categorical (numerical or constant) is
    evaluated at 0: [cond()] equals [cond(var=0)]. *)
Theorem cond_numeric_omitted_is_zero (spec : ModelSpec) (var : string) (k : factor_kind)
    (cats : list string) (kw : gmap string value) :
  In var (variables spec) -> kw !! var = None ->
  encoder_lookup spec var = Ok (EncoderEntry k cats) -> k <> Categorical ->
  cond (ModelMatrix spec) (<[var := VNum 0]> kw) = cond (ModelMatrix spec) kw.
Proof.
  intros Hin Hnone Henc Hk. unfold cond.
  rewrite (fill_defaults_numeric spec var k cats Henc Hk _ kw Hnone Hin). reflexivity.
Qed.

Lemma cond_numeric_omitted_is_zero_witness :
  cond (ModelMatrix spec_age) (<["age" := VNum 0]> ∅) = cond (ModelMatrix spec_age) ∅.
Proof.
  apply (cond_numeric_omitted_is_zero spec_age "age" Numerical []);
    [left; reflexivity | reflexivity | reflexivity | discriminate].
Defined.

(* ------------------------------------------------------------------ *)
(** ** Short contrasts in the edgeR adapter *)

(** [contrast[1]] and [contrast[2]] are read: a contrast with fewer than
    three entries raises IndexError. *)
Theorem edger_contrast_vec_short_raises (spec : ModelSpec) (contrast : list string) :
  length contrast < 3 ->
  edger_contrast_vec (ModelMatrix spec) contrast
  = raise IndexError "list index out of range".
Proof.
  intros Hlen. destruct contrast as [|c0 [|c1 [|c2 l]]]; [| | |cbn in Hlen; lia];
    unfold edger_contrast_vec; cbn [design_columns mbind result_bind fold_left];
    try reflexivity.
  rewrite (edger_step_ok _ _ _ 1 (c0 ++ "[T." ++ c1 ++ "]")) by reflexivity. reflexivity.
Qed.

Lemma edger_contrast_vec_short_raises_witness :
  edger_contrast_vec design_condition ["condition"; "A"] = raise IndexError "list index out of range".
Proof. apply edger_contrast_vec_short_raises. cbn. lia. Defined.

(* ------------------------------------------------------------------ *)
(** ** The index of the StatsmodelsDE table *)

Lemma assoc_map_cols {B} (k : string) (cols : list string) (g : string -> B) :
  assoc k (map (fun c => (c, g c)) cols) = if mem k cols then Some (g k) else None.
Proof.
  induction cols as [|c cols IH]; [reflexivity|]. cbn [map assoc]. unfold mem in *.
  cbn [existsb]. destruct (String.eqb_spec k c) as [->|]; cbn [orb]; [reflexivity | exact IH].
Qed.

Lemma map_imap_indep {A B C} (f : nat -> A -> B) (g : B -> C) (h : A -> C) (l : list A) :
  (forall i x, g (f i x) = h x) -> map g (imap f l) = map h l.
Proof.
  revert f. induction l as [|x l IH]; intros f Hf; [reflexivity|]. cbn [imap map].
  rewrite Hf. f_equal. apply IH. intros i y. apply Hf.
Qed.

Lemma map_fst_combine_le {A B} (l : list A) (l' : list B) :
  length l <= length l' -> map fst (combine l l') = l.
Proof.
  revert l'. induction l as [|x l IH]; intros [|y l'] H; cbn in H |- *; [reflexivity | reflexivity | lia|].
  f_equal. apply IH. lia.
Qed.


(** After [fit], the index of the table of [_test_single_contrast] holds
    every feature name exactly once (in p-value order). *)
Theorem statsmodels_table_index_is_features {Model Contrast}
    (regression_model : list cell -> Design -> Model)
    (t_test : Model -> Contrast -> result TTest)
    (st st' : SMState Model) (c : Contrast) (t : Table) :
  StatsmodelsDE_fit regression_model st = Ok st' ->
  StatsmodelsDE_test_single_contrast t_test st' c = Ok t ->
  Permutation (map ridx (trows t)) (map CText (var_names (m_adata (sm_method st)))).
Proof.
  unfold StatsmodelsDE_fit.
  destruct (mapM _ _) as [ys|e] eqn:Hys; cbn [mbind result_bind]; [|discriminate].
  intros [= <-]. apply mapM_length_result in Hys.
  unfold StatsmodelsDE_test_single_contrast, models_or_error.
  cbn [sm_models sm_method mbind result_bind].
  set (vs := var_names (m_adata (sm_method st))) in *.
  set (ms := map (fun y => regression_model y (m_design (sm_method st))) ys).
  destruct (mapM _ (combine vs ms)) as [res|e] eqn:Hres; cbn [mbind result_bind]; [|discriminate].
  destruct (sort_values "pvalue" (DataFrame res)) as [t1|e] eqn:Hs;
    cbn [mbind result_bind]; [|discriminate].
  destruct (sort_values_perm _ _ _ Hs) as [Hcols Hperm].
  unfold set_index. destruct (mem "variable" (tcols t1)) eqn:Hv; [|discriminate].
  intros [= <-]. cbn [trows]. rewrite map_map. cbn [ridx].
  rewrite Hcols in Hv. rewrite (Permutation_map _ Hperm).
  unfold DataFrame in Hv |- *. cbn [trows tcols] in Hv |- *.
  rewrite (map_imap_indep _ _ (fun r => match assoc "variable" r with
                                         | Some x => x | None => CNaN end)).
  2:{ intros i r. unfold get_cell. cbn [rdata]. rewrite assoc_map_cols, Hv. reflexivity. }
  erewrite (mapM_map_eq _ _ (fun p => CText (fst p)) _ _ _ Hres).
  - rewrite <- (map_map fst CText). apply Permutation_refl'. f_equal.
    apply map_fst_combine_le. unfold ms. rewrite length_map, Hys. lia.
  Unshelve. intros [v md] r Hr. unfold StatsmodelsDE_record in Hr.
    destruct (t_test md c); cbn [mbind result_bind] in Hr; [|discriminate Hr].
    injection Hr as <-. reflexivity.
Qed.


Lemma statsmodels_table_index_is_features_witness :
  exists t, StatsmodelsDE_test_single_contrast pvalue_model_test
              (MkSMState method_example (Some [4#100; 1#100]%Q)) tt = Ok t /\
  Permutation (map ridx (trows t)) (map CText (var_names (m_adata method_example))).
Proof.
  destruct (StatsmodelsDE_test_single_contrast pvalue_model_test
              (MkSMState method_example (Some [4#100; 1#100]%Q)) tt) as [t|e] eqn:H.
  - exists t. split; [reflexivity|].
    refine (statsmodels_table_index_is_features (fun y _ => match y with
                                                            | CQ 1 :: _ => 4#100
                                                            | _ => 1#100 end)%Q
              pvalue_model_test (fresh_SM method_example) _ tt t _ H).
    vm_compute. reflexivity.
  - exfalso. vm_compute in H. discriminate H.
Defined.
